(** * RollingBloomDBG: a de Bruijn graph synthesised from a Bloom filter

    Shallow embedding of [BloomDBG/RollingBloomDBG.h] (the vertex type, the
    three lazy neighbour iterators and the free functions of the Boost graph
    interface) together with the unit-test fixture of
    [Unittest/BloomDBG/RollingBloomDBGTest.cpp].

    The header relies on collaborators that live in other files
    ([LightweightKmer], [RollingHash], [MaskedKmer], [BloomFilter]).  They
    are modelled here from the specification: the k-mer buffer as a list of
    characters, the rolling hash and the Bloom filter as interfaces (type
    classes) with the contract the specification gives them.  A reference
    implementation of both interfaces is supplied in [Module Ref]; it is
    used to run the unit-test fixture. *)

From Stdlib Require Import ZArith List Ascii String Bool Lia.
From stdpp Require Import base decidable option list numbers strings gmap.

Import ListNotations.

Local Open Scope Z_scope.

(** ** Alphabet and directions *)

(** [#define BASE_CHARS "ACGT"].  Indexing the literal at 4 reads its
    terminating NUL, which is the default of [base_at]. *)
Definition BASE_CHARS : list ascii := list_ascii_of_string "ACGT".

(** [NUM_BASES] comes from [Assembly/SeqExt.h]; the alphabet has four
    symbols. *)
Definition NUM_BASES : Z := 4.

(** [BASE_CHARS[i]] *)
Definition base_at (i : Z) : ascii := nth (Z.to_nat i) BASE_CHARS "000"%char.

(** [enum extDirection { SENSE, ANTISENSE }] *)
Inductive extDirection : Set := SENSE | ANTISENSE.

(** Fixed-width unsigned arithmetic of the cursors and of [Kmer::length()]. *)
Definition wrap16 (z : Z) : Z := z mod 2 ^ 16.
Definition wrap32 (z : Z) : Z := z mod 2 ^ 32.

(** ** Session configuration *)

(** Modelled from the spec: the process-wide k-mer length
    ([Kmer::length()]) and the optional spaced-seed mask string
    ([MaskedKmer::mask()], e.g. "11011"; empty when no mask is set).  Both
    are set once before any vertex exists. *)
Class Session : Type := {
  Kmer_length : nat;
  MaskedKmer_mask : list ascii
}.

(** ** LightweightKmer *)

(** A k-mer buffer: the [char] array behind [LightweightKmer::c_str()]. *)
Abbreviation kmer_buf := (list ascii).

(** Modelled from the spec: [LightweightKmer::shift(dir, charIn)] drops the
    boundary symbol on the trailing side and appends [charIn] on the leading
    side. *)
Definition LightweightKmer_shift (dir : extDirection) (charIn : ascii)
    (s : kmer_buf) : kmer_buf :=
  match dir with
  | SENSE => tl s ++ [charIn]
  | ANTISENSE => charIn :: removelast s
  end.

(** Position [i] takes part in comparisons: every position when no mask is
    set, the positions whose mask character is not '0' otherwise. *)
Definition significant `{Session} (i : nat) : bool :=
  match MaskedKmer_mask with
  | [] => true
  | _ => negb (bool_decide (nth i MaskedKmer_mask "0"%char = "0"%char))
  end.

(** Modelled from the spec: [LightweightKmer::operator==] compares the first
    [Kmer::length()] characters of two buffers at the positions the mask
    leaves significant. *)
Definition LightweightKmer_eq `{Session} (a b : kmer_buf) : bool :=
  forallb
    (fun i => negb (significant i)
              || bool_decide (nth i a "000"%char = nth i b "000"%char))
    (seq 0 Kmer_length).

(** ** RollingHash *)

(** Modelled from the spec: the incremental multi-hash state is the ordered
    collection of [numHashes] hash values of the current window, each a
    [size_t]. *)
Abbreviation RollingHash := (list Z).

(** Modelled from the spec: the operations of [BloomDBG/RollingHash.h] that
    the header calls.  [RollingHash_new kmer numHashes k] is the constructor
    that hashes a full sequence; the other three are the incremental
    updates, which receive the window contents before the mutation. *)
Class RollingHashImpl `{Session} : Type := {
  RollingHash_new : kmer_buf -> nat -> nat -> RollingHash;
  RollingHash_rollRight : RollingHash -> kmer_buf -> ascii -> RollingHash;
  RollingHash_rollLeft : RollingHash -> ascii -> kmer_buf -> RollingHash;
  RollingHash_setBaseHash : RollingHash -> kmer_buf -> Z -> ascii -> RollingHash
}.

(** Modelled from the spec: [RollingHash::setBase(char* kmer, pos, base)]
    updates the hash values for a single-symbol substitution and writes the
    symbol into the buffer it is handed (the unit tests compare the
    enumerated vertices, k-mer included, with freshly built ones).  An
    out-of-range position leaves the buffer alone. *)
Definition RollingHash_setBase `{RollingHashImpl}
    (h : RollingHash) (kmer : kmer_buf) (pos : Z) (base : ascii)
    : RollingHash * kmer_buf :=
  (RollingHash_setBaseHash h kmer pos base, <[Z.to_nat pos := base]> kmer).

(** [RollingHash::getHashes(hashes)] copies the hash values out. *)
Definition RollingHash_getHashes (h : RollingHash) : list Z := h.

(** [RollingHash::operator!=] *)
Definition RollingHash_ne (a b : RollingHash) : bool :=
  negb (bool_decide (a = b)).

(** Modelled from the spec: the contract of the incremental updates for
    hash states of [numHashes] values.  Each update yields the state that
    hashing the mutated window from scratch yields. *)
Class RollingHashContract `{RollingHashImpl} (numHashes : nat) : Prop := {
  rollRight_fresh : forall (s : kmer_buf) (c : ascii),
    length s = Kmer_length ->
    RollingHash_rollRight (RollingHash_new s numHashes Kmer_length) s c
    = RollingHash_new (LightweightKmer_shift SENSE c s) numHashes Kmer_length;
  rollLeft_fresh : forall (s : kmer_buf) (c : ascii),
    length s = Kmer_length ->
    RollingHash_rollLeft (RollingHash_new s numHashes Kmer_length) c s
    = RollingHash_new (LightweightKmer_shift ANTISENSE c s) numHashes Kmer_length;
  setBase_fresh : forall (s : kmer_buf) (pos : nat) (c : ascii),
    length s = Kmer_length ->
    (pos < Kmer_length)%nat ->
    RollingHash_setBaseHash (RollingHash_new s numHashes Kmer_length) s
      (Z.of_nat pos) c
    = RollingHash_new (<[pos := c]> s) numHashes Kmer_length
}.

(** ** Bloom filter *)

(** Modelled from the spec: the membership oracle,
    [BF::contains(const size_t hashes[])]. *)
Class BloomFilterOps (BF : Type) : Type := {
  bloom_contains : BF -> list Z -> bool
}.

(** ** RollingBloomDBGVertex *)

(** [struct RollingBloomDBGVertex]: a k-mer and its rolling hash, both held
    by value. *)
Record RollingBloomDBGVertex : Type := mkVertex {
  m_kmer : kmer_buf;
  m_rollingHash : RollingHash
}.

(** The default constructor: an empty k-mer and an empty hash state. *)
Definition Vertex_default : RollingBloomDBGVertex := mkVertex [] [].

Section Vertex.
Context `{HI : RollingHashImpl}.

(** [RollingBloomDBGVertex::clone] *)
Definition clone (v : RollingBloomDBGVertex) : RollingBloomDBGVertex :=
  mkVertex (m_kmer v) (m_rollingHash v).

(** [RollingBloomDBGVertex::shift]: roll the hash over the current
    window, then shift the k-mer. *)
Definition shift (dir : extDirection) (charIn : ascii)
    (v : RollingBloomDBGVertex) : RollingBloomDBGVertex :=
  let h :=
    match dir with
    | SENSE => RollingHash_rollRight (m_rollingHash v) (m_kmer v) charIn
    | ANTISENSE => RollingHash_rollLeft (m_rollingHash v) charIn (m_kmer v)
    end in
  mkVertex (LightweightKmer_shift dir charIn (m_kmer v)) h.

(** [RollingBloomDBGVertex::setLastBase]: [k-1] is computed on
    [unsigned]. *)
Definition setLastBase (dir : extDirection) (base : ascii)
    (v : RollingBloomDBGVertex) : RollingBloomDBGVertex :=
  let k := Z.of_nat Kmer_length in
  let pos := match dir with
             | SENSE => wrap32 (k - 1)
             | ANTISENSE => 0
             end in
  let '(h, buf) := RollingHash_setBase (m_rollingHash v) (m_kmer v) pos base in
  mkVertex buf h.

(** The events of [operator==]: which comparisons were carried out. *)
Inductive cmp_event : Set := CmpHash | CmpKmer.

(** [RollingBloomDBGVertex::operator==], with the comparisons it
    performs recorded in order. *)
Definition Vertex_eq_trace (u o : RollingBloomDBGVertex)
    : bool * list cmp_event :=
  if RollingHash_ne (m_rollingHash u) (m_rollingHash o)
  then (false, [CmpHash])
  else (LightweightKmer_eq (m_kmer u) (m_kmer o), [CmpHash; CmpKmer]).

Definition Vertex_eq (u o : RollingBloomDBGVertex) : bool :=
  fst (Vertex_eq_trace u o).

(** [RollingBloomDBGVertex::operator!=] *)
Definition Vertex_ne (u o : RollingBloomDBGVertex) : bool :=
  negb (Vertex_eq u o).
End Vertex.

(** ** The graph *)

(** [class RollingBloomDBG<BF>]: a non-owning reference to the Bloom
    filter. *)
Record RollingBloomDBG (BF : Type) : Type := mkGraph { m_bloom : BF }.
Arguments mkGraph {BF} _.
Arguments m_bloom {BF} _.

(** [vertex_exists(u, g)]: query the Bloom filter with the hash values of
    [u]. *)
Definition vertex_exists {BF} `{BloomFilterOps BF}
    (u : RollingBloomDBGVertex) (g : RollingBloomDBG BF) : bool :=
  let hashes := RollingHash_getHashes (m_rollingHash u) in
  bloom_contains (m_bloom g) hashes.

(** [graph_traits::edge_descriptor], with Boost's [source] and [target]. *)
Abbreviation edge_descriptor :=
  (RollingBloomDBGVertex * RollingBloomDBGVertex)%type.
Definition source (e : edge_descriptor) : RollingBloomDBGVertex := fst e.
Definition target (e : edge_descriptor) : RollingBloomDBGVertex := snd e.

(** [graph_traits::null_vertex()] (line 154) still returns
    [std::make_pair(MaskedKmer(), std::vector<size_t>())], the vertex
    representation the header had before [RollingBloomDBGVertex]; no
    constructor of [RollingBloomDBGVertex] takes that pair, so the member
    cannot be instantiated and has no behaviour to embed. *)

(** ** Input iterators *)

(** The part of the input-iterator interface that the header implements and
    that [std::distance] and range loops use.  [operator*] and [operator++]
    assert [m_i < NUM_BASES]; a failed assertion is [None]. *)
Class InputIterator (It Val : Type) : Type := {
  it_eqb : It -> It -> bool;
  it_deref : It -> option Val;
  it_incr : It -> option It
}.

(** [std::distance(first, last)] on input iterators: advance [first] until
    it compares equal to [last], counting the steps. *)
Fixpoint std_distance {It Val} `{InputIterator It Val}
    (fuel : nat) (first last : It) : option Z :=
  if it_eqb first last then Some 0
  else match fuel with
       | O => None
       | S fuel' =>
           match it_incr first with
           | None => None
           | Some first' => Z.succ <$> std_distance fuel' first' last
           end
       end.

(** The sequence a caller reads off a range:
    [for (; first != last; ++first) yield *first]. *)
Fixpoint range_elements {It Val} `{InputIterator It Val}
    (fuel : nat) (first last : It) : option (list Val) :=
  if it_eqb first last then Some []
  else match fuel with
       | O => None
       | S fuel' =>
           match it_deref first, it_incr first with
           | Some x, Some first' => cons x <$> range_elements fuel' first' last
           | _, _ => None
           end
       end.

(** Fuel that lets a cursor run over the whole alphabet. *)
Definition alphabet_fuel : nat := Z.to_nat NUM_BASES.

(** [graph_traits::adjacency_iterator] *)
Module adjacency_iterator.
Section Defs.
Context `{HI : RollingHashImpl} {BF : Type} `{BO : BloomFilterOps BF}.

Record t : Type := mk {
  m_g : RollingBloomDBG BF;
  m_u : RollingBloomDBGVertex;
  m_v : RollingBloomDBGVertex;
  m_i : Z (* short unsigned *)
}.

(** [next()]: skip to the next edge that is present.  One unit of fuel per
    turn of the [for] loop. *)
Fixpoint next_loop (fuel : nat) (it : t) : t :=
  match fuel with
  | O => it
  | S fuel' =>
      if m_i it <? NUM_BASES then
        let v := setLastBase SENSE (base_at (m_i it)) (m_v it) in
        if vertex_exists v (m_g it)
        then mk (m_g it) (m_u it) v (m_i it)
        else next_loop fuel' (mk (m_g it) (m_u it) v (wrap16 (m_i it + 1)))
      else it
  end.

Definition next (it : t) : t := next_loop (Z.to_nat NUM_BASES) it.

(** [adjacency_iterator(g)]: the end iterator. *)
Definition end_ (g : RollingBloomDBG BF) : t :=
  mk g Vertex_default Vertex_default NUM_BASES.

(** [adjacency_iterator(g, u)] *)
Definition begin_ (g : RollingBloomDBG BF) (u : RollingBloomDBGVertex) : t :=
  let it := mk g u (clone u) 0 in
  let it := mk (m_g it) (m_u it) (shift SENSE "A" (m_v it)) (m_i it) in
  next it.

(** [operator*] *)
Definition deref (it : t) : option RollingBloomDBGVertex :=
  if m_i it <? NUM_BASES then Some (m_v it) else None.

(** [operator==] *)
Definition eqb (a b : t) : bool := m_i a =? m_i b.

(** [operator!=] *)
Definition neqb (a b : t) : bool := negb (eqb a b).

(** [operator++()] *)
Definition incr (it : t) : option t :=
  if m_i it <? NUM_BASES
  then Some (next (mk (m_g it) (m_u it) (m_v it) (wrap16 (m_i it + 1))))
  else None.

(** [operator++(int)]: the copy taken before the increment, and the
    advanced iterator. *)
Definition post_incr (it : t) : option (t * t) :=
  match incr it with
  | Some it' => Some (it, it')
  | None => None
  end.

#[global] Instance input_iterator : InputIterator t RollingBloomDBGVertex :=
  {| it_eqb := eqb; it_deref := deref; it_incr := incr |}.
End Defs.
Arguments t : clear implicits.
End adjacency_iterator.

(** [graph_traits::out_edge_iterator] *)
Module out_edge_iterator.
Section Defs.
Context `{HI : RollingHashImpl} {BF : Type} `{BO : BloomFilterOps BF}.

Record t : Type := mk {
  m_g : RollingBloomDBG BF;
  m_u : RollingBloomDBGVertex;
  m_v : RollingBloomDBGVertex;
  m_i : Z (* unsigned *)
}.

(** [next()] *)
Fixpoint next_loop (fuel : nat) (it : t) : t :=
  match fuel with
  | O => it
  | S fuel' =>
      if m_i it <? NUM_BASES then
        let v := setLastBase SENSE (base_at (m_i it)) (m_v it) in
        if vertex_exists v (m_g it)
        then mk (m_g it) (m_u it) v (m_i it)
        else next_loop fuel' (mk (m_g it) (m_u it) v (wrap32 (m_i it + 1)))
      else it
  end.

Definition next (it : t) : t := next_loop (Z.to_nat NUM_BASES) it.

(** [out_edge_iterator(g)] *)
Definition end_ (g : RollingBloomDBG BF) : t :=
  mk g Vertex_default Vertex_default NUM_BASES.

(** [out_edge_iterator(g, u)] *)
Definition begin_ (g : RollingBloomDBG BF) (u : RollingBloomDBGVertex) : t :=
  let it := mk g u (clone u) 0 in
  let it := mk (m_g it) (m_u it) (shift SENSE "A" (m_v it)) (m_i it) in
  next it.

(** [operator*]: [edge_descriptor(m_u, m_v)] *)
Definition deref (it : t) : option edge_descriptor :=
  if m_i it <? NUM_BASES then Some (m_u it, m_v it) else None.

Definition eqb (a b : t) : bool := m_i a =? m_i b.

Definition neqb (a b : t) : bool := negb (eqb a b).

Definition incr (it : t) : option t :=
  if m_i it <? NUM_BASES
  then Some (next (mk (m_g it) (m_u it) (m_v it) (wrap32 (m_i it + 1))))
  else None.

Definition post_incr (it : t) : option (t * t) :=
  match incr it with
  | Some it' => Some (it, it')
  | None => None
  end.

#[global] Instance input_iterator : InputIterator t edge_descriptor :=
  {| it_eqb := eqb; it_deref := deref; it_incr := incr |}.
End Defs.
Arguments t : clear implicits.
End out_edge_iterator.

(** [graph_traits::in_edge_iterator] *)
Module in_edge_iterator.
Section Defs.
Context `{HI : RollingHashImpl} {BF : Type} `{BO : BloomFilterOps BF}.

Record t : Type := mk {
  m_g : RollingBloomDBG BF;
  m_u : RollingBloomDBGVertex;
  m_v : RollingBloomDBGVertex;
  m_i : Z (* unsigned *)
}.

(** [next()] *)
Fixpoint next_loop (fuel : nat) (it : t) : t :=
  match fuel with
  | O => it
  | S fuel' =>
      if m_i it <? NUM_BASES then
        let v := setLastBase ANTISENSE (base_at (m_i it)) (m_v it) in
        if vertex_exists v (m_g it)
        then mk (m_g it) (m_u it) v (m_i it)
        else next_loop fuel' (mk (m_g it) (m_u it) v (wrap32 (m_i it + 1)))
      else it
  end.

Definition next (it : t) : t := next_loop (Z.to_nat NUM_BASES) it.

(** [in_edge_iterator(g)] *)
Definition end_ (g : RollingBloomDBG BF) : t :=
  mk g Vertex_default Vertex_default NUM_BASES.

(** [in_edge_iterator(g, u)] *)
Definition begin_ (g : RollingBloomDBG BF) (u : RollingBloomDBGVertex) : t :=
  let it := mk g u (clone u) 0 in
  let it := mk (m_g it) (m_u it) (shift ANTISENSE "A" (m_v it)) (m_i it) in
  next it.

(** [operator*]: [edge_descriptor(m_v, m_u)] *)
Definition deref (it : t) : option edge_descriptor :=
  if m_i it <? NUM_BASES then Some (m_v it, m_u it) else None.

Definition eqb (a b : t) : bool := m_i a =? m_i b.

Definition neqb (a b : t) : bool := negb (eqb a b).

Definition incr (it : t) : option t :=
  if m_i it <? NUM_BASES
  then Some (next (mk (m_g it) (m_u it) (m_v it) (wrap32 (m_i it + 1))))
  else None.

Definition post_incr (it : t) : option (t * t) :=
  match incr it with
  | Some it' => Some (it, it')
  | None => None
  end.

#[global] Instance input_iterator : InputIterator t edge_descriptor :=
  {| it_eqb := eqb; it_deref := deref; it_incr := incr |}.
End Defs.
Arguments t : clear implicits.
End in_edge_iterator.

(** ** Free functions of the graph interface *)

Section Graph.
Context `{HI : RollingHashImpl} {BF : Type} `{BO : BloomFilterOps BF}.

(** [adjacent_vertices(u, g)] *)
Definition adjacent_vertices (u : RollingBloomDBGVertex)
    (g : RollingBloomDBG BF)
    : adjacency_iterator.t BF * adjacency_iterator.t BF :=
  (adjacency_iterator.begin_ g u, adjacency_iterator.end_ g).

(** [out_degree(u, g)]: [std::distance] over the adjacency range, returned
    as [unsigned]. *)
Definition out_degree (fuel : nat) (u : RollingBloomDBGVertex)
    (g : RollingBloomDBG BF) : option Z :=
  let adj := adjacent_vertices u g in
  wrap32 <$> std_distance fuel (fst adj) (snd adj).

(** [out_edges(u, g)] *)
Definition out_edges (u : RollingBloomDBGVertex) (g : RollingBloomDBG BF)
    : out_edge_iterator.t BF * out_edge_iterator.t BF :=
  (out_edge_iterator.begin_ g u, out_edge_iterator.end_ g).

(** [in_edges(u, g)] *)
Definition in_edges (u : RollingBloomDBGVertex) (g : RollingBloomDBG BF)
    : in_edge_iterator.t BF * in_edge_iterator.t BF :=
  (in_edge_iterator.begin_ g u, in_edge_iterator.end_ g).

(** [in_degree(u, g)] *)
Definition in_degree (fuel : nat) (u : RollingBloomDBGVertex)
    (g : RollingBloomDBG BF) : option Z :=
  let it := in_edges u g in
  wrap32 <$> std_distance fuel (fst it) (snd it).

(** [get(vertex_complement_t, g, u)] (lines 444-453) and
    [get(vertex_name_t, g, u)] (lines 455-462) read [u.first] and [u.second],
    members of the former pair representation that [RollingBloomDBGVertex]
    does not have: neither template can be instantiated for this graph, and
    neither is embedded. *)

(** [get(vertex_removed_t, g, u)] *)
Definition get_vertex_removed (g : RollingBloomDBG BF)
    (u : RollingBloomDBGVertex) : bool := false.

(** [get(vertex_bundle_t, g, e)] and [get(edge_bundle_t, g, e)]: the graph
    carries no properties. *)
Definition get_vertex_bundle (g : RollingBloomDBG BF) (e : edge_descriptor)
    : unit := tt.

Definition get_edge_bundle (g : RollingBloomDBG BF) (e : edge_descriptor)
    : unit := tt.

(** The sequences the three ranges yield. *)
Definition adjacency_seq (fuel : nat) (u : RollingBloomDBGVertex)
    (g : RollingBloomDBG BF) : option (list RollingBloomDBGVertex) :=
  let r := adjacent_vertices u g in range_elements fuel (fst r) (snd r).

Definition out_edge_seq (fuel : nat) (u : RollingBloomDBGVertex)
    (g : RollingBloomDBG BF) : option (list edge_descriptor) :=
  let r := out_edges u g in range_elements fuel (fst r) (snd r).

Definition in_edge_seq (fuel : nat) (u : RollingBloomDBGVertex)
    (g : RollingBloomDBG BF) : option (list edge_descriptor) :=
  let r := in_edges u g in range_elements fuel (fst r) (snd r).



(** *** The enumeration protocol in the specification's words *)

(** Substitute the symbols of [cs] one after the other at the newly exposed
    position of the working vertex [w]; each substitution acts on the
    vertex the previous one left. *)
Fixpoint substitute_each (dir : extDirection) (w : RollingBloomDBGVertex)
    (cs : list ascii) : list RollingBloomDBGVertex :=
  match cs with
  | [] => []
  | c :: cs' =>
      let w' := setLastBase dir c w in
      w' :: substitute_each dir w' cs'
  end.

(** Clone [u], shift the clone once, try A, C, G, T in that order. *)
Definition candidates (dir : extDirection) (u : RollingBloomDBGVertex)
    : list RollingBloomDBGVertex :=
  substitute_each dir (shift dir "A" (clone u)) BASE_CHARS.

(** The candidate for one symbol taken on its own: shift a clone of [u]
    and set its last base to [c]. *)
Definition candidate (dir : extDirection) (u : RollingBloomDBGVertex)
    (c : ascii) : RollingBloomDBGVertex :=
  setLastBase dir c (shift dir "A" (clone u)).

(** The substitutions that pass the membership oracle, from a working
    vertex [w]. *)
Definition passing (dir : extDirection) (g : RollingBloomDBG BF)
    (w : RollingBloomDBGVertex) (cs : list ascii)
    : list RollingBloomDBGVertex :=
  List.filter (fun x => vertex_exists x g) (substitute_each dir w cs).

(** The candidates that pass the membership oracle. *)
Definition neighbours (dir : extDirection) (u : RollingBloomDBGVertex)
    (g : RollingBloomDBG BF) : list RollingBloomDBGVertex :=
  List.filter (fun w => vertex_exists w g) (candidates dir u).

(** A mutation of a vertex, and a run of mutations. *)
Inductive mutation : Set :=
| Shift (dir : extDirection) (charIn : ascii)
| SetLastBase (dir : extDirection) (base : ascii).

Definition mutate (v : RollingBloomDBGVertex) (m : mutation)
    : RollingBloomDBGVertex :=
  match m with
  | Shift dir c => shift dir c v
  | SetLastBase dir c => setLastBase dir c v
  end.

Definition mutate_all (ms : list mutation) (v : RollingBloomDBGVertex)
    : RollingBloomDBGVertex := fold_left mutate ms v.
End Graph.

(** ** Well-formed sessions and vertices *)

(** [Kmer::length()] is positive and fits [unsigned]. *)
Definition valid_session `{Session} : Prop :=
  0 < Z.of_nat Kmer_length < 2 ^ 32.


(** The hash state obtained by hashing the current k-mer of [v] from
    scratch. *)
Definition fresh_hash `{RollingHashImpl} (numHashes : nat)
    (v : RollingBloomDBGVertex) : RollingHash :=
  RollingHash_new (m_kmer v) numHashes Kmer_length.

(** A vertex is consistent when its buffer holds [Kmer::length()] symbols
    and its hash state is the hash of that buffer. *)
Definition consistent `{RollingHashImpl} (numHashes : nat)
    (v : RollingBloomDBGVertex) : Prop :=
  length (m_kmer v) = Kmer_length /\ m_rollingHash v = fresh_hash numHashes v.

(** The buffer index that [setLastBase] writes. *)
Definition last_index `{Session} (dir : extDirection) : nat :=
  match dir with
  | SENSE => (Kmer_length - 1)%nat
  | ANTISENSE => 0%nat
  end.

(** The k-mer of the candidate for symbol [c]: the window of [s] moved by
    one position, with [c] at the newly exposed end. *)
Definition candidate_kmer (dir : extDirection) (s : kmer_buf) (c : ascii)
    : kmer_buf :=
  match dir with
  | SENSE => tl s ++ [c]
  | ANTISENSE => c :: removelast s
  end.

(** ** Reference collaborators *)

(** An unmasked session of k-mer length [k]. *)
Definition unmasked_session (k : nat) : Session :=
  {| Kmer_length := k; MaskedKmer_mask := [] |}.

(** A session with a spaced-seed mask. *)
Definition masked_session (k : nat) (mask : string) : Session :=
  {| Kmer_length := k; MaskedKmer_mask := list_ascii_of_string mask |}.

(** A vertex built the way the unit tests build one:
    [V(kmer, RollingHash(kmer, numHashes, k))]. *)
Definition make_vertex `{HI : RollingHashImpl} (kmer : string)
    (numHashes k : nat)
    : RollingBloomDBGVertex :=
  mkVertex (list_ascii_of_string kmer)
           (RollingHash_new (list_ascii_of_string kmer) numHashes k).

(** The vertices of [RollingBloomDBGTest], for any rolling hash:
    [V(kmer, RollingHash(kmer, m_numHashes, m_k))] with [m_numHashes = 2]
    and [m_k = 5]. *)
Definition test_vertex (HI : @RollingHashImpl (unmasked_session 5))
    (kmer : string) : RollingBloomDBGVertex :=
  @make_vertex (unmasked_session 5) HI kmer 2 5.

(** ** Hashing vertices and the test suite *)

(** Modelled from the spec: [RollingHash::getHashSeed()], the seed value
    derived from the hash state. *)
Class RollingHashSeed : Type := {
  RollingHash_getHashSeed : RollingHash -> Z
}.

(** [std::hash<RollingBloomDBGVertex>::operator()] *)
Definition Vertex_hash `{RollingHashSeed} (vertex : RollingBloomDBGVertex)
    : Z :=
  RollingHash_getHashSeed (m_rollingHash vertex).

Section UnorderedSet.
Context `{Sess : Session} `{HS : RollingHashSeed}.

(** The [std::unordered_set<V>] of the tests, as the list of its elements.
    A key matches an element when [hash<V>] gives both the same value and
    [operator==] holds. *)
Definition key_match (x e : RollingBloomDBGVertex) : bool :=
  (Vertex_hash e =? Vertex_hash x) && Vertex_eq e x.

(** [find]: the position of the matching element, [None] for [end()]. *)
Fixpoint uset_find (s : list RollingBloomDBGVertex)
    (x : RollingBloomDBGVertex) : option nat :=
  match s with
  | [] => None
  | e :: s' => if key_match x e then Some 0%nat else S <$> uset_find s' x
  end.

(** [insert]: no effect when a matching element is present. *)
Definition uset_insert (s : list RollingBloomDBGVertex)
    (x : RollingBloomDBGVertex) : list RollingBloomDBGVertex :=
  match uset_find s x with
  | Some _ => s
  | None => s ++ [x]
  end.

(** [erase(position)] *)
Definition uset_erase (s : list RollingBloomDBGVertex) (pos : nat)
    : list RollingBloomDBGVertex :=
  delete pos s.
End UnorderedSet.

(** The test bodies of [RollingBloomDBGTest.cpp] over the members of the
    fixture ([m_numHashes], [m_k], [m_graph]).  A test is [true] when every
    [ASSERT_*] and [EXPECT_*] holds; a failed assertion inside an iterator
    operator fails the test.  [fuel] bounds [std::distance]. *)
Section Tests.
Context `{HI : RollingHashImpl} `{HS : RollingHashSeed}.
Context {BF : Type} `{BO : BloomFilterOps BF}.
Context (m_numHashes m_k : nat) (m_graph : RollingBloomDBG BF) (fuel : nat).

(** [TEST_F(RollingBloomDBGTest, out_edge_iterator)]; the spaced-seed
    fixture runs the same body. *)
Definition TEST_out_edge_iterator : bool :=
  let GACTC := make_vertex "GACTC" m_numHashes m_k in
  let ACTCT := make_vertex "ACTCT" m_numHashes m_k in
  let ACTCG := make_vertex "ACTCG" m_numHashes m_k in
  let expectedNeighbours := uset_insert (uset_insert [] ACTCT) ACTCG in
  bool_decide (out_degree fuel GACTC m_graph = Some 2)
  && let '(ei, ei_end) := out_edges GACTC m_graph in
     out_edge_iterator.neqb ei_end ei
     && match out_edge_iterator.deref ei with
        | None => false
        | Some e =>
          match uset_find expectedNeighbours (target e) with
          | None => false
          | Some neighbour =>
            let expectedNeighbours :=
              uset_erase expectedNeighbours neighbour in
            match out_edge_iterator.post_incr ei with
            | None => false
            | Some (_, ei) =>
              out_edge_iterator.neqb ei_end ei
              && match out_edge_iterator.deref ei with
                 | None => false
                 | Some e =>
                   match uset_find expectedNeighbours (target e) with
                   | None => false
                   | Some _ =>
                     match out_edge_iterator.post_incr ei with
                     | None => false
                     | Some (_, ei) => out_edge_iterator.eqb ei_end ei
                     end
                   end
                 end
            end
          end
        end.

(** [TEST_F(RollingBloomDBGTest, adjacency_iterator)] *)
Definition TEST_adjacency_iterator : bool :=
  let GACTC := make_vertex "GACTC" m_numHashes m_k in
  let ACTCT := make_vertex "ACTCT" m_numHashes m_k in
  let ACTCG := make_vertex "ACTCG" m_numHashes m_k in
  let expectedNeighbours := uset_insert (uset_insert [] ACTCT) ACTCG in
  bool_decide (out_degree fuel GACTC m_graph = Some 2)
  && let '(ai, ai_end) := adjacent_vertices GACTC m_graph in
     adjacency_iterator.neqb ai_end ai
     && match adjacency_iterator.deref ai with
        | None => false
        | Some v =>
          match uset_find expectedNeighbours v with
          | None => false
          | Some neighbour =>
            let expectedNeighbours :=
              uset_erase expectedNeighbours neighbour in
            match adjacency_iterator.post_incr ai with
            | None => false
            | Some (_, ai) =>
              adjacency_iterator.neqb ai_end ai
              && match adjacency_iterator.deref ai with
                 | None => false
                 | Some v =>
                   match uset_find expectedNeighbours v with
                   | None => false
                   | Some _ =>
                     match adjacency_iterator.post_incr ai with
                     | None => false
                     | Some (_, ai) => adjacency_iterator.eqb ai_end ai
                     end
                   end
                 end
            end
          end
        end.

(** [TEST_F(RollingBloomDBGTest, in_edges)] *)
Definition TEST_in_edges : bool :=
  let GACTC := make_vertex "GACTC" m_numHashes m_k in
  let CGACT := make_vertex "CGACT" m_numHashes m_k in
  let TGACT := make_vertex "TGACT" m_numHashes m_k in
  let expectedNeighbours := uset_insert (uset_insert [] CGACT) TGACT in
  bool_decide (in_degree fuel GACTC m_graph = Some 2)
  && let '(ei, ei_end) := in_edges GACTC m_graph in
     in_edge_iterator.neqb ei_end ei
     && match in_edge_iterator.deref ei with
        | None => false
        | Some e =>
          match uset_find expectedNeighbours (source e) with
          | None => false
          | Some neighbour =>
            let expectedNeighbours :=
              uset_erase expectedNeighbours neighbour in
            match in_edge_iterator.post_incr ei with
            | None => false
            | Some (_, ei) =>
              in_edge_iterator.neqb ei_end ei
              && match in_edge_iterator.deref ei with
                 | None => false
                 | Some e =>
                   match uset_find expectedNeighbours (source e) with
                   | None => false
                   | Some _ =>
                     match in_edge_iterator.post_incr ei with
                     | None => false
                     | Some (_, ei) => in_edge_iterator.eqb ei_end ei
                     end
                   end
                 end
            end
          end
        end.
End Tests.

Module Ref.

(** Modelled from the spec: a seeded multi-hash function with incremental
    roll and substitution updates on [size_t] (64-bit) values.  The seed is
    the polynomial of the character codes in base [B] modulo [2^64]; hash
    value [j] is derived from the seed, hash value 0 being the seed
    itself. *)
Definition M : Z := 2 ^ 64.
Definition B : Z := 257.
(** The inverse of [B] modulo [2^64]. *)
Definition Binv : Z := 18374966859414961921.

Definition code (c : ascii) : Z := Z.of_N (N_of_ascii c).

Fixpoint poly (s : kmer_buf) : Z :=
  match s with
  | [] => 0
  | a :: t => code a * B ^ Z.of_nat (length t) + poly t
  end.

Definition seed_of (s : kmer_buf) : Z := poly s mod M.

Definition mix (seed : Z) (j : nat) : Z :=
  (seed * (2 * Z.of_nat j + 1) + Z.of_nat j) mod M.

Definition multiHash (numHashes : nat) (seed : Z) : RollingHash :=
  map (mix seed) (seq 0 numHashes).

(** [RollingHash(kmer, numHashes, k)] *)
Definition new (kmer : kmer_buf) (numHashes k : nat) : RollingHash :=
  multiHash numHashes (seed_of (take k kmer)).

(** The incremental updates recover the seed from the state, update it
    with wrap-around arithmetic and derive the hash values again. *)
Definition reseed (st : RollingHash) (f : Z -> Z) : RollingHash :=
  match st with
  | [] => []
  | seed :: _ => multiHash (length st) (f seed mod M)
  end.

Definition rollRight (k : nat) (st : RollingHash) (kmer : kmer_buf)
    (charIn : ascii) : RollingHash :=
  if (k =? 0)%nat then st
  else reseed st (fun seed =>
         (seed - code (nth 0 kmer "000"%char) * B ^ (Z.of_nat k - 1)) * B
         + code charIn).

Definition rollLeft (k : nat) (st : RollingHash) (charIn : ascii)
    (kmer : kmer_buf) : RollingHash :=
  if (k =? 0)%nat then st
  else reseed st (fun seed =>
         code charIn * B ^ (Z.of_nat k - 1)
         + (seed - code (nth (k - 1) kmer "000"%char)) * Binv).

Definition setBaseHash (k : nat) (st : RollingHash) (kmer : kmer_buf)
    (pos : Z) (base : ascii) : RollingHash :=
  reseed st (fun seed =>
    seed + (code base - code (nth (Z.to_nat pos) kmer "000"%char))
           * B ^ (Z.of_nat k - 1 - pos)).

Definition hash_impl (k : nat) : @RollingHashImpl (unmasked_session k) :=
  {| RollingHash_new := new;
     RollingHash_rollRight := rollRight k;
     RollingHash_rollLeft := rollLeft k;
     RollingHash_setBaseHash := setBaseHash k |}.

(** Modelled from the spec: a Bloom filter of [bf_size] bits queried and
    filled by hash values; a value addresses the bit at its remainder
    modulo the size. *)
Record BloomFilter : Type := mkBloom {
  bf_size : Z;
  bf_hashNum : nat;
  bf_kmerSize : nat;
  bf_bits : gset Z
}.

(** [BloomFilter(size, hashNum, kmerSize)] *)
Definition bloom_new (size : Z) (hashNum kmerSize : nat) : BloomFilter :=
  mkBloom size hashNum kmerSize ∅.

(** [BloomFilter::insert(hashes)] *)
Definition bloom_insert (bf : BloomFilter) (hashes : list Z) : BloomFilter :=
  mkBloom (bf_size bf) (bf_hashNum bf) (bf_kmerSize bf)
    (bf_bits bf ∪ list_to_set (map (fun h => h mod bf_size bf) hashes)).

(** [BloomFilter::contains(hashes)] *)
Definition contains (bf : BloomFilter) (hashes : list Z) : bool :=
  forallb (fun h => bool_decide (h mod bf_size bf ∈ bf_bits bf)) hashes.

#[global] Instance bloom_ops : BloomFilterOps BloomFilter :=
  {| bloom_contains := contains |}.

(** The fixture of [RollingBloomDBGTest]: k = 5, a filter of 100000 bits,
    two hash values, and the five k-mers of the test graph inserted. *)
Definition test_k : nat := 5.
Definition test_bloomSize : Z := 100000.
Definition test_numHashes : nat := 2.

Definition test_kmers : list string :=
  ["CGACT"; "TGACT"; "GACTC"; "ACTCT"; "ACTCG"]%string.

Definition test_bloom : BloomFilter :=
  fold_left
    (fun bf s =>
       bloom_insert bf
         (RollingHash_getHashes
            (new (list_ascii_of_string s) test_numHashes test_k)))
    test_kmers
    (bloom_new test_bloomSize test_numHashes test_k).

Definition test_graph : RollingBloomDBG BloomFilter := mkGraph test_bloom.

Definition test_session : Session := unmasked_session test_k.
Definition test_hash : @RollingHashImpl test_session := hash_impl test_k.

(** A vertex of the fixture. *)
Definition V (kmer : string) : RollingBloomDBGVertex :=
  make_vertex (HI := test_hash) kmer test_numHashes test_k.

(** Modelled from the spec: the seed is the first hash value. *)
Definition getHashSeed (h : RollingHash) : Z := hd 0 h.

#[global] Instance seed_impl : RollingHashSeed :=
  {| RollingHash_getHashSeed := getHashSeed |}.

(** Modelled from the spec: under a spaced seed the hash covers the
    significant positions only; a don't-care position is hashed as 'X'.
    The updates of this variant hash the mutated window again. *)
Definition mask_kmer `{Session} (s : kmer_buf) : kmer_buf :=
  imap (fun i c => if significant i then c else "X"%char) s.

Definition masked_new `{Session} (kmer : kmer_buf) (numHashes k : nat)
    : RollingHash :=
  multiHash numHashes (seed_of (mask_kmer (take k kmer))).

Definition masked_hash_impl (S : Session) : @RollingHashImpl S :=
  {| RollingHash_new := masked_new;
     RollingHash_rollRight := fun st kmer charIn =>
       masked_new (LightweightKmer_shift SENSE charIn kmer) (length st)
         Kmer_length;
     RollingHash_rollLeft := fun st charIn kmer =>
       masked_new (LightweightKmer_shift ANTISENSE charIn kmer) (length st)
         Kmer_length;
     RollingHash_setBaseHash := fun st kmer pos base =>
       masked_new (<[Z.to_nat pos := base]> kmer) (length st) Kmer_length |}.

(** The fixture of [RollingBloomDBGSpacedSeedTest]: k = 5, one hash value,
    spaced seed "11011". *)
Definition spaced_session : Session := masked_session 5 "11011".
Definition spaced_hash : @RollingHashImpl spaced_session :=
  masked_hash_impl spaced_session.
Definition spaced_numHashes : nat := 1.

Definition spaced_bloom : BloomFilter :=
  fold_left
    (fun bf s =>
       bloom_insert bf
         (RollingHash_getHashes
            (@masked_new spaced_session (list_ascii_of_string s)
               spaced_numHashes test_k)))
    test_kmers
    (bloom_new test_bloomSize spaced_numHashes test_k).

Definition spaced_graph : RollingBloomDBG BloomFilter := mkGraph spaced_bloom.

End Ref.

(** * Properties *)

(** ** The alphabet cursor *)

Lemma base_at_drop (i : Z) (c : ascii) (cs : list ascii) :
  0 <= i -> drop (Z.to_nat i) BASE_CHARS = c :: cs ->
  i < NUM_BASES /\ base_at i = c /\ drop (Z.to_nat (i + 1)) BASE_CHARS = cs
  /\ wrap16 (i + 1) = i + 1 /\ wrap32 (i + 1) = i + 1.
Proof.
  intros Hi Hd.
  assert (Hlt : i < 4).
  { destruct (Z_lt_le_dec i 4) as [|Hge]; [done|].
    rewrite drop_ge in Hd; [done|]. cbn. lia. }
  assert (Hcases : i = 0 \/ i = 1 \/ i = 2 \/ i = 3) by lia.
  unfold NUM_BASES.
  destruct Hcases as [-> | [-> | [-> | -> ]]];
    cbn in Hd; inversion Hd; subst; done.
Qed.

Lemma drop_nil_end (i : Z) :
  0 <= i <= NUM_BASES -> drop (Z.to_nat i) BASE_CHARS = [] -> i = NUM_BASES.
Proof.
  unfold NUM_BASES. intros Hi Hd.
  assert (Hcases : i = 0 \/ i = 1 \/ i = 2 \/ i = 3 \/ i = 4) by lia.
  destruct Hcases as [-> | [-> | [-> | [-> | -> ]]]]; cbn in Hd; done.
Qed.

Lemma drop_length_bound (i : Z) (cs : list ascii) :
  drop (Z.to_nat i) BASE_CHARS = cs -> (length cs <= Z.to_nat NUM_BASES)%nat.
Proof.
  intros <-. rewrite length_drop. change (length BASE_CHARS) with 4%nat.
  unfold NUM_BASES. lia.
Qed.

(** ** Ranges of input iterators *)

Section Ranges.
Context {It Val : Type} `{InputIterator It Val}.

(** [std::distance] counts exactly the elements the range yields. *)
Lemma std_distance_range (fuel : nat) (first last : It) (l : list Val) :
  range_elements fuel first last = Some l ->
  std_distance fuel first last = Some (Z.of_nat (length l)).
Proof.
  revert first l. induction fuel as [|fuel IH]; intros first l; cbn.
  - destruct (it_eqb first last); [|done]. by intros [= <-].
  - destruct (it_eqb first last); [by intros [= <-]|].
    destruct (it_deref first) as [x|]; [|done].
    destruct (it_incr first) as [first'|]; [|done].
    destruct (range_elements fuel first' last) as [l'|] eqn:Hr; [|done].
    intros [= <-]. rewrite (IH _ _ Hr). cbn. f_equal. lia.
Qed.
End Ranges.

(** ** The three iterators enumerate the candidates that pass the oracle *)

Section Enumeration.
Context `{HI : RollingHashImpl} {BF : Type} `{BO : BloomFilterOps BF}.

Lemma passing_cons dir g w c cs :
  passing dir g w (c :: cs)
  = if vertex_exists (setLastBase dir c w) g
    then setLastBase dir c w :: passing dir g (setLastBase dir c w) cs
    else passing dir g (setLastBase dir c w) cs.
Proof. reflexivity. Qed.

Ltac cbn_iter :=
  cbn -[setLastBase vertex_exists Z.ltb Z.eqb wrap16 wrap32 NUM_BASES
        Z.to_nat passing range_elements base_at].

Ltac cursor_step Hd :=
  let Hlt := fresh "Hlt" in
  let Hc := fresh "Hc" in
  let Hw16 := fresh "Hw16" in
  let Hw32 := fresh "Hw32" in
  let Hltb := fresh "Hltb" in
  let Hneq := fresh "Hneq" in
  let Hlen := fresh "Hlen" in
  apply base_at_drop in Hd as (Hlt & Hc & Hd & Hw16 & Hw32); [|lia];
  pose proof (drop_length_bound _ _ Hd) as Hlen;
  pose proof (proj2 (Z.ltb_lt _ _) Hlt) as Hltb;
  match type of Hlt with
  | ?i < _ =>
      assert (Hneq : (i =? NUM_BASES) = false) by (apply Z.eqb_neq; lia)
  end;
  rewrite passing_cons;
  cbn_iter;
  rewrite ?Hltb, ?Hc, ?Hw16, ?Hw32.

Ltac range_hit IH Hfuel :=
  match goal with
  | |- @range_elements _ _ _ ?fuel _ _ = _ =>
      destruct fuel; [cbn in Hfuel; lia|]
  end;
  cbn_iter;
  cbn [range_elements];
  cbn_iter;
  match goal with
  | Hltb : (?i <? NUM_BASES) = true, Hneq : (?i =? NUM_BASES) = false,
    Hw16 : wrap16 (?i + 1) = ?i + 1, Hw32 : wrap32 (?i + 1) = ?i + 1 |- _ =>
      unfold adjacency_iterator.eqb, adjacency_iterator.deref,
        adjacency_iterator.incr, adjacency_iterator.next,
        out_edge_iterator.eqb, out_edge_iterator.deref,
        out_edge_iterator.incr, out_edge_iterator.next,
        in_edge_iterator.eqb, in_edge_iterator.deref,
        in_edge_iterator.incr, in_edge_iterator.next;
      cbn_iter;
      rewrite ?Hltb, ?Hneq, ?Hw16, ?Hw32;
      erewrite IH; [done|lia|done|done|cbn in *; lia]
  end.

(** [next()] leaves its loop: with the fuel [next] supplies, the cursor is
    at the end or rests on a vertex that passes the oracle. *)
Lemma adjacency_next_loop_exits (f : nat) (it : adjacency_iterator.t BF) :
  0 <= adjacency_iterator.m_i it ->
  NUM_BASES - adjacency_iterator.m_i it <= Z.of_nat f ->
  let it' := adjacency_iterator.next_loop f it in
  NUM_BASES <= adjacency_iterator.m_i it'
  \/ vertex_exists (adjacency_iterator.m_v it') (adjacency_iterator.m_g it')
     = true.
Proof.
  revert it. induction f as [|f IH]; intros [g u v i]; cbn_iter;
    intros H0 Hf; [left; lia|].
  destruct (i <? NUM_BASES) eqn:Hlt; cbn_iter; [|left; by apply Z.ltb_ge].
  apply Z.ltb_lt in Hlt.
  destruct (vertex_exists (setLastBase SENSE (base_at i) v) g) eqn:Hex;
    cbn_iter; [by right|].
  assert (Hw : wrap16 (i + 1) = i + 1).
  { unfold wrap16. apply Z.mod_small. unfold NUM_BASES in Hlt. lia. }
  rewrite Hw. apply IH; cbn_iter; lia.
Qed.

Lemma out_edge_next_loop_exits (f : nat) (it : out_edge_iterator.t BF) :
  0 <= out_edge_iterator.m_i it ->
  NUM_BASES - out_edge_iterator.m_i it <= Z.of_nat f ->
  let it' := out_edge_iterator.next_loop f it in
  NUM_BASES <= out_edge_iterator.m_i it'
  \/ vertex_exists (out_edge_iterator.m_v it') (out_edge_iterator.m_g it')
     = true.
Proof.
  revert it. induction f as [|f IH]; intros [g u v i]; cbn_iter;
    intros H0 Hf; [left; lia|].
  destruct (i <? NUM_BASES) eqn:Hlt; cbn_iter; [|left; by apply Z.ltb_ge].
  apply Z.ltb_lt in Hlt.
  destruct (vertex_exists (setLastBase SENSE (base_at i) v) g) eqn:Hex;
    cbn_iter; [by right|].
  assert (Hw : wrap32 (i + 1) = i + 1).
  { unfold wrap32. apply Z.mod_small. unfold NUM_BASES in Hlt. lia. }
  rewrite Hw. apply IH; cbn_iter; lia.
Qed.

Lemma in_edge_next_loop_exits (f : nat) (it : in_edge_iterator.t BF) :
  0 <= in_edge_iterator.m_i it ->
  NUM_BASES - in_edge_iterator.m_i it <= Z.of_nat f ->
  let it' := in_edge_iterator.next_loop f it in
  NUM_BASES <= in_edge_iterator.m_i it'
  \/ vertex_exists (in_edge_iterator.m_v it') (in_edge_iterator.m_g it')
     = true.
Proof.
  revert it. induction f as [|f IH]; intros [g u v i]; cbn_iter;
    intros H0 Hf; [left; lia|].
  destruct (i <? NUM_BASES) eqn:Hlt; cbn_iter; [|left; by apply Z.ltb_ge].
  apply Z.ltb_lt in Hlt.
  destruct (vertex_exists (setLastBase ANTISENSE (base_at i) v) g) eqn:Hex;
    cbn_iter; [by right|].
  assert (Hw : wrap32 (i + 1) = i + 1).
  { unfold wrap32. apply Z.mod_small. unfold NUM_BASES in Hlt. lia. }
  rewrite Hw. apply IH; cbn_iter; lia.
Qed.

Lemma adjacency_range_from (g g' : RollingBloomDBG BF) u cs :
  forall i w f fuel,
    0 <= i <= NUM_BASES ->
    drop (Z.to_nat i) BASE_CHARS = cs ->
    (length cs <= f)%nat -> (length cs <= fuel)%nat ->
    range_elements fuel
      (adjacency_iterator.next_loop f (adjacency_iterator.mk g u w i))
      (adjacency_iterator.end_ g')
    = Some (passing SENSE g w cs).
Proof.
  induction cs as [|c cs IH]; intros i w f fuel Hi Hd Hf Hfuel.
  - apply drop_nil_end in Hd as ->; [|done].
    destruct f, fuel; reflexivity.
  - destruct f as [|f]; [cbn in Hf; lia|].
    cursor_step Hd.
    destruct (vertex_exists (setLastBase SENSE c w) g) eqn:Hex.
    + range_hit IH Hfuel.
    + apply IH; [lia|done|cbn in *; lia|cbn in *; lia].
Qed.

Lemma out_edge_range_from (g g' : RollingBloomDBG BF) u cs :
  forall i w f fuel,
    0 <= i <= NUM_BASES ->
    drop (Z.to_nat i) BASE_CHARS = cs ->
    (length cs <= f)%nat -> (length cs <= fuel)%nat ->
    range_elements fuel
      (out_edge_iterator.next_loop f (out_edge_iterator.mk g u w i))
      (out_edge_iterator.end_ g')
    = Some (map (fun x => (u, x)) (passing SENSE g w cs)).
Proof.
  induction cs as [|c cs IH]; intros i w f fuel Hi Hd Hf Hfuel.
  - apply drop_nil_end in Hd as ->; [|done].
    destruct f, fuel; reflexivity.
  - destruct f as [|f]; [cbn in Hf; lia|].
    cursor_step Hd.
    destruct (vertex_exists (setLastBase SENSE c w) g) eqn:Hex.
    + range_hit IH Hfuel.
    + apply IH; [lia|done|cbn in *; lia|cbn in *; lia].
Qed.

Lemma in_edge_range_from (g g' : RollingBloomDBG BF) u cs :
  forall i w f fuel,
    0 <= i <= NUM_BASES ->
    drop (Z.to_nat i) BASE_CHARS = cs ->
    (length cs <= f)%nat -> (length cs <= fuel)%nat ->
    range_elements fuel
      (in_edge_iterator.next_loop f (in_edge_iterator.mk g u w i))
      (in_edge_iterator.end_ g')
    = Some (map (fun x => (x, u)) (passing ANTISENSE g w cs)).
Proof.
  induction cs as [|c cs IH]; intros i w f fuel Hi Hd Hf Hfuel.
  - apply drop_nil_end in Hd as ->; [|done].
    destruct f, fuel; reflexivity.
  - destruct f as [|f]; [cbn in Hf; lia|].
    cursor_step Hd.
    destruct (vertex_exists (setLastBase ANTISENSE c w) g) eqn:Hex.
    + range_hit IH Hfuel.
    + apply IH; [lia|done|cbn in *; lia|cbn in *; lia].
Qed.
End Enumeration.

(** ** Closed forms of the three ranges *)

Section ClosedForms.
Context `{HI : RollingHashImpl} {BF : Type} `{BO : BloomFilterOps BF}.

Lemma neighbours_passing dir u (g : RollingBloomDBG BF) :
  neighbours dir u g = passing dir g (shift dir "A" (clone u)) BASE_CHARS.
Proof. reflexivity. Qed.

Lemma neighbours_length dir u (g : RollingBloomDBG BF) :
  (length (neighbours dir u g) <= 4)%nat.
Proof.
  unfold neighbours. etransitivity; [apply List.filter_length_le|]. done.
Qed.

Lemma adjacency_seq_closed n u (g : RollingBloomDBG BF) :
  adjacency_seq (alphabet_fuel + n) u g = Some (neighbours SENSE u g).
Proof.
  unfold adjacency_seq, adjacent_vertices, adjacency_iterator.begin_,
    adjacency_iterator.next.
  cbn [fst snd adjacency_iterator.m_g adjacency_iterator.m_u
       adjacency_iterator.m_v adjacency_iterator.m_i].
  rewrite neighbours_passing.
  apply adjacency_range_from; [done|done|done|].
  change (length BASE_CHARS) with 4%nat. unfold alphabet_fuel, NUM_BASES. lia.
Qed.

Lemma out_edge_seq_closed n u (g : RollingBloomDBG BF) :
  out_edge_seq (alphabet_fuel + n) u g
  = Some (map (fun w => (u, w)) (neighbours SENSE u g)).
Proof.
  unfold out_edge_seq, out_edges, out_edge_iterator.begin_,
    out_edge_iterator.next.
  cbn [fst snd out_edge_iterator.m_g out_edge_iterator.m_u
       out_edge_iterator.m_v out_edge_iterator.m_i].
  rewrite neighbours_passing.
  apply out_edge_range_from; [done|done|done|].
  change (length BASE_CHARS) with 4%nat. unfold alphabet_fuel, NUM_BASES. lia.
Qed.

Lemma in_edge_seq_closed n u (g : RollingBloomDBG BF) :
  in_edge_seq (alphabet_fuel + n) u g
  = Some (map (fun w => (w, u)) (neighbours ANTISENSE u g)).
Proof.
  unfold in_edge_seq, in_edges, in_edge_iterator.begin_,
    in_edge_iterator.next.
  cbn [fst snd in_edge_iterator.m_g in_edge_iterator.m_u
       in_edge_iterator.m_v in_edge_iterator.m_i].
  rewrite neighbours_passing.
  apply in_edge_range_from; [done|done|done|].
  change (length BASE_CHARS) with 4%nat. unfold alphabet_fuel, NUM_BASES. lia.
Qed.

Lemma wrap32_small (n : nat) : (n <= 4)%nat -> wrap32 (Z.of_nat n) = Z.of_nat n.
Proof. intros Hn. unfold wrap32. apply Z.mod_small. lia. Qed.

Lemma out_degree_closed n u (g : RollingBloomDBG BF) :
  out_degree (alphabet_fuel + n) u g
  = Some (Z.of_nat (length (neighbours SENSE u g))).
Proof.
  unfold out_degree.
  pose proof (adjacency_seq_closed n u g) as Hseq. unfold adjacency_seq in Hseq.
  cbn zeta in *. rewrite (std_distance_range _ _ _ _ Hseq).
  cbn [fmap option_fmap option_map]. f_equal.
  apply wrap32_small, neighbours_length.
Qed.

Lemma in_degree_closed n u (g : RollingBloomDBG BF) :
  in_degree (alphabet_fuel + n) u g
  = Some (Z.of_nat (length (neighbours ANTISENSE u g))).
Proof.
  unfold in_degree.
  pose proof (in_edge_seq_closed n u g) as Hseq. unfold in_edge_seq in Hseq.
  cbn zeta in *. rewrite (std_distance_range _ _ _ _ Hseq).
  cbn [fmap option_fmap option_map]. f_equal. rewrite length_map.
  apply wrap32_small, neighbours_length.
Qed.
End ClosedForms.

(** ** Mutations keep a vertex consistent *)

Section Consistency.
Context `{HI : RollingHashImpl}.
Context (numHashes : nat) {HC : RollingHashContract numHashes}.
Context (Hk : valid_session).

Lemma last_pos_wrap : wrap32 (Z.of_nat Kmer_length - 1) = Z.of_nat (Kmer_length - 1).
Proof.
  unfold valid_session in Hk. unfold wrap32.
  rewrite Z.mod_small by lia. lia.
Qed.

Lemma last_index_lt dir : (last_index dir < Kmer_length)%nat.
Proof. unfold valid_session in Hk. destruct dir; cbn; lia. Qed.

Lemma setLastBase_kmer dir c v :
  m_kmer (setLastBase dir c v) = <[last_index dir := c]> (m_kmer v).
Proof.
  unfold setLastBase, RollingHash_setBase. cbn [m_kmer].
  destruct dir; cbn [last_index].
  - by rewrite last_pos_wrap, Nat2Z.id.
  - done.
Qed.

Lemma setLastBase_fresh dir c v :
  consistent numHashes v ->
  setLastBase dir c v
  = mkVertex (<[last_index dir := c]> (m_kmer v))
      (RollingHash_new (<[last_index dir := c]> (m_kmer v)) numHashes
         Kmer_length).
Proof.
  intros [Hlen Hh].
  pose proof (setLastBase_kmer dir c v) as Hkm.
  destruct (setLastBase dir c v) as [buf h] eqn:E. cbn in Hkm. subst buf.
  f_equal.
  assert (h = m_rollingHash (setLastBase dir c v)) as -> by by rewrite E.
  unfold setLastBase, RollingHash_setBase. cbn [m_rollingHash].
  rewrite Hh. unfold fresh_hash.
  pose proof (last_index_lt dir) as Hlt.
  destruct dir; cbn [last_index] in *.
  - rewrite last_pos_wrap. by apply setBase_fresh.
  - by apply (setBase_fresh _ 0%nat).
Qed.

Lemma setLastBase_consistent dir c v :
  consistent numHashes v -> consistent numHashes (setLastBase dir c v).
Proof.
  intros Hv. rewrite (setLastBase_fresh dir c v Hv).
  destruct Hv as [Hlen _]. split; cbn.
  - by rewrite length_insert.
  - done.
Qed.

Lemma shift_length dir c (s : kmer_buf) :
  length s = Kmer_length -> length (LightweightKmer_shift dir c s) = Kmer_length.
Proof.
  unfold valid_session in Hk. intros Hlen.
  destruct s as [|a s]; [cbn in Hlen; lia|].
  destruct dir; cbn [LightweightKmer_shift tl].
  - rewrite length_app. cbn in *. lia.
  - cbn [length]. rewrite removelast_firstn_len, length_take. cbn in *. lia.
Qed.

Lemma shift_fresh dir c v :
  consistent numHashes v ->
  shift dir c v
  = mkVertex (LightweightKmer_shift dir c (m_kmer v))
      (RollingHash_new (LightweightKmer_shift dir c (m_kmer v)) numHashes
         Kmer_length).
Proof.
  intros [Hlen Hh]. unfold shift. f_equal. rewrite Hh. unfold fresh_hash.
  destruct dir.
  - by apply rollRight_fresh.
  - by apply rollLeft_fresh.
Qed.

Lemma shift_consistent dir c v :
  consistent numHashes v -> consistent numHashes (shift dir c v).
Proof.
  intros Hv. rewrite (shift_fresh dir c v Hv).
  destruct Hv as [Hlen _]. split; cbn; [|done]. by apply shift_length.
Qed.

Lemma mutate_consistent m v :
  consistent numHashes v -> consistent numHashes (mutate v m).
Proof.
  destruct m; cbn; [apply shift_consistent|apply setLastBase_consistent].
Qed.
End Consistency.

(** ** The reference rolling hash meets the contract *)

Module RefFacts.
Import Ref.

Lemma poly_app (t : kmer_buf) (c : ascii) :
  poly (t ++ [c]) = poly t * B + code c.
Proof.
  induction t as [|a t IH]; cbn [app poly length].
  - change (B ^ Z.of_nat 0) with 1. lia.
  - rewrite IH, length_app. cbn [length].
    replace (Z.of_nat (length t + 1)) with (Z.succ (Z.of_nat (length t))) by lia.
    rewrite Z.pow_succ_r by lia. ring.
Qed.

Lemma poly_insert (s : kmer_buf) (pos : nat) (c : ascii) :
  (pos < length s)%nat ->
  poly (<[pos := c]> s)
  = poly s + (code c - code (nth pos s "000"%char))
             * B ^ (Z.of_nat (length s) - 1 - Z.of_nat pos).
Proof.
  revert pos. induction s as [|a s IH]; intros pos Hpos; [cbn in Hpos; lia|].
  destruct pos as [|pos].
  - cbn [list_insert insert poly length nth].
    replace (Z.of_nat (S (length s)) - 1 - Z.of_nat 0) with (Z.of_nat (length s)) by lia.
    ring.
  - cbn [length] in Hpos.
    change (<[S pos := c]> (a :: s)) with (a :: <[pos := c]> s).
    cbn [poly nth]. rewrite length_insert, IH by lia.
    replace (Z.of_nat (length (a :: s)) - 1 - Z.of_nat (S pos))
      with (Z.of_nat (length s) - 1 - Z.of_nat pos) by (cbn [length]; lia).
    ring.
Qed.

Lemma seed_of_range (s : kmer_buf) : 0 <= seed_of s < M.
Proof. unfold seed_of. apply Z.mod_pos_bound. done. Qed.

Lemma length_multiHash n seed : length (multiHash n seed) = n.
Proof. unfold multiHash. by rewrite length_map, length_seq. Qed.

Lemma reseed_multiHash (n : nat) (seed : Z) (f : Z -> Z) :
  0 <= seed < M ->
  reseed (multiHash n seed) f = multiHash n (f seed mod M).
Proof.
  intros Hs. destruct n as [|n]; [done|].
  assert (Hhd : multiHash (S n) seed = seed :: map (mix seed) (seq 1 n)).
  { cbn [multiHash seq map]. f_equal. unfold mix.
    replace (seed * (2 * Z.of_nat 0 + 1) + Z.of_nat 0) with seed by lia.
    by apply Z.mod_small. }
  unfold reseed. rewrite length_multiHash. by rewrite Hhd.
Qed.

Lemma Binv_ok : B * Binv = 1 + 256 * M.
Proof. reflexivity. Qed.

Lemma contract (k numHashes : nat) :
  @RollingHashContract (unmasked_session k) (hash_impl k) numHashes.
Proof.
  split; cbn [Kmer_length unmasked_session RollingHash_new RollingHash_rollRight
              RollingHash_rollLeft RollingHash_setBaseHash hash_impl].
  - intros s c Hlen. unfold rollRight, new.
    destruct k as [|k].
    + destruct s; [|done]. done.
    + destruct s as [|a t]; [done|]. cbn [length] in Hlen.
      injection Hlen as Hlen.
      change (S k =? 0)%nat with false. cbn match.
      rewrite reseed_multiHash by apply seed_of_range. f_equal.
      cbn [LightweightKmer_shift tl].
      rewrite !take_ge by (rewrite ?length_app; cbn [length]; lia).
      unfold seed_of.
      rewrite poly_app. cbn [poly nth]. rewrite Hlen.
      replace (Z.of_nat (S k) - 1) with (Z.of_nat k) by lia.
      set (X := code a * B ^ Z.of_nat k + poly t).
      rewrite (Z.mod_eq X M) by done.
      replace ((X - M * (X / M) - code a * B ^ Z.of_nat k) * B + code c)
        with (poly t * B + code c + (- (X / M) * B) * M) by (subst X; ring).
      apply Z_mod_plus_full.
  - intros s c Hlen. unfold rollLeft, new.
    destruct k as [|k].
    + destruct s; [|done]. done.
    + induction s as [|l t _] using rev_ind; [done|].
      rewrite length_app in Hlen. cbn [length] in Hlen.
      assert (Hlt : length t = k) by lia.
      change (S k =? 0)%nat with false. cbn match.
      rewrite reseed_multiHash by apply seed_of_range. f_equal.
      cbn [LightweightKmer_shift]. rewrite removelast_last.
      rewrite !take_ge by (rewrite ?length_app; cbn [length]; lia).
      replace (S k - 1)%nat with (length t) by lia.
      rewrite nth_middle.
      unfold seed_of. rewrite poly_app. cbn [poly]. rewrite Hlt.
      replace (Z.of_nat (S k) - 1) with (Z.of_nat k) by lia.
      set (X := poly t * B + code l).
      rewrite (Z.mod_eq X M) by done.
      replace (code c * B ^ Z.of_nat k + (X - M * (X / M) - code l) * Binv)
        with (code c * B ^ Z.of_nat k + poly t * (B * Binv)
              + (- (X / M) * Binv) * M) by (subst X; ring).
      rewrite Binv_ok.
      replace (code c * B ^ Z.of_nat k + poly t * (1 + 256 * M)
               + - (X / M) * Binv * M)
        with (code c * B ^ Z.of_nat k + poly t
              + (poly t * 256 - (X / M) * Binv) * M) by ring.
      apply Z_mod_plus_full.
  - intros s pos c Hlen Hpos. unfold setBaseHash, new.
    rewrite reseed_multiHash by apply seed_of_range. f_equal.
    rewrite !take_ge by (rewrite ?length_insert; lia).
    unfold seed_of. rewrite Nat2Z.id.
    rewrite poly_insert by lia. rewrite Hlen.
    apply Zplus_mod_idemp_l.
Qed.
End RefFacts.

(** ** Candidates of a consistent vertex *)

Section Candidates.
Context `{HI : RollingHashImpl} {BF : Type} `{BO : BloomFilterOps BF}.
Context (numHashes : nat) {HC : RollingHashContract numHashes}.
Context (Hk : valid_session).

Lemma insert_last_index dir (s : kmer_buf) (a c : ascii) :
  length s = Kmer_length ->
  <[last_index dir := c]> (LightweightKmer_shift dir a s)
  = candidate_kmer dir s c.
Proof.
  unfold valid_session in Hk. intros Hlen.
  destruct dir; cbn [last_index LightweightKmer_shift candidate_kmer]; [|done].
  destruct s as [|x s]; [cbn in Hlen; lia|]. cbn [tl length] in *.
  replace (Kmer_length - 1)%nat with (length s + 0)%nat by lia.
  by rewrite insert_app_r.
Qed.

Lemma insert_last_index_twice dir (s : kmer_buf) (a c : ascii) :
  <[last_index dir := c]> (<[last_index dir := a]> s)
  = <[last_index dir := c]> s.
Proof. apply list_insert_insert_eq. Qed.

Lemma candidate_fresh dir u c :
  consistent numHashes u ->
  candidate dir u c
  = mkVertex (candidate_kmer dir (m_kmer u) c)
      (RollingHash_new (candidate_kmer dir (m_kmer u) c) numHashes Kmer_length).
Proof.
  intros Hu. unfold candidate.
  assert (Hc : consistent numHashes (clone u)) by (by destruct u).
  rewrite (setLastBase_fresh numHashes Hk dir c _
             (shift_consistent numHashes Hk dir "A" _ Hc)).
  rewrite (shift_fresh numHashes dir "A" _ Hc). cbn [m_kmer clone].
  destruct Hu as [Hlen _]. by rewrite insert_last_index.
Qed.


Lemma substitute_each_independent dir w cs :
  consistent numHashes w ->
  substitute_each dir w cs = map (fun c => setLastBase dir c w) cs.
Proof.
  intros Hw. assert (Hgen : forall w', consistent numHashes w' ->
    (forall c, setLastBase dir c w' = setLastBase dir c w) ->
    substitute_each dir w' cs = map (fun c => setLastBase dir c w) cs).
  { induction cs as [|c cs IH]; intros w' Hw' Heq; [done|].
    cbn [substitute_each map]. rewrite Heq. f_equal.
    apply IH.
    - by apply (setLastBase_consistent numHashes Hk).
    - intros c'.
      rewrite (setLastBase_fresh numHashes Hk dir c' _
                 (setLastBase_consistent numHashes Hk dir c w Hw)).
      rewrite (setLastBase_fresh numHashes Hk dir c' w Hw).
      rewrite (setLastBase_fresh numHashes Hk dir c w Hw). cbn [m_kmer].
      by rewrite insert_last_index_twice. }
  by apply Hgen.
Qed.

Lemma candidates_independent dir u :
  consistent numHashes u ->
  candidates dir u = map (candidate dir u) BASE_CHARS.
Proof.
  intros Hu. unfold candidates, candidate.
  apply substitute_each_independent, (shift_consistent numHashes Hk).
  by destruct u.
Qed.

Lemma neighbours_independent dir u (g : RollingBloomDBG BF) :
  consistent numHashes u ->
  neighbours dir u g
  = map (candidate dir u)
      (List.filter (fun c => vertex_exists (candidate dir u c) g) BASE_CHARS).
Proof.
  intros Hu. unfold neighbours. rewrite (candidates_independent dir u Hu).
  generalize BASE_CHARS. intros cs. induction cs as [|c cs IH]; [done|].
  cbn [map List.filter]. destruct (vertex_exists (candidate dir u c) g);
    cbn [map]; by rewrite IH.
Qed.
End Candidates.

(** * The claims *)

(** ** C8: the hash state follows the k-mer *)

(** C8.  A vertex whose hash state is the hash of its k-mer keeps that
    property through every run of [shift] and [setLastBase] calls, in either
    direction: afterwards the hash state equals the state obtained by
    hashing the current k-mer from scratch, and the k-mer still has
    [Kmer::length()] symbols. *)
Theorem C8_hash_state_follows_kmer `{HI : RollingHashImpl}
    (numHashes : nat) (HC : RollingHashContract numHashes)
    (Hk : valid_session)
    (ms : list mutation) (v : RollingBloomDBGVertex) :
  consistent numHashes v ->
  m_rollingHash (mutate_all ms v) = fresh_hash numHashes (mutate_all ms v)
  /\ length (m_kmer (mutate_all ms v)) = Kmer_length.
Proof.
  revert v. unfold mutate_all.
  induction ms as [|m ms IH]; intros v Hv; cbn [fold_left].
  - destruct Hv. by split.
  - apply IH. by apply (mutate_consistent numHashes Hk).
Qed.

Lemma C8_witness :
  let v := @mutate_all Ref.test_session Ref.test_hash
             [Shift SENSE "A"; SetLastBase SENSE "T";
              Shift ANTISENSE "G"; SetLastBase ANTISENSE "C";
              SetLastBase SENSE "G"]
             (Ref.V "GACTC") in
  m_rollingHash v = @fresh_hash Ref.test_session Ref.test_hash 2 v
  /\ length (m_kmer v) = 5%nat.
Proof.
  apply (@C8_hash_state_follows_kmer Ref.test_session Ref.test_hash 2
           (RefFacts.contract 5 2)).
  - split; reflexivity.
  - split; reflexivity.
Defined.

(** ** C4: the out-degree counts the passing candidates *)

(** C4.  For a consistent vertex [u], [out_degree(u)] returns the number of
    alphabet symbols [c] whose candidate (a clone of [u] shifted in the
    SENSE direction with its last base set to [c]) passes the membership
    oracle, and that number is the length of the adjacency sequence of
    [u]. *)
Theorem C4_out_degree_counts_passing_candidates
    `{HI : RollingHashImpl} {BF : Type} `{BO : BloomFilterOps BF}
    (numHashes : nat) (HC : RollingHashContract numHashes)
    (Hk : valid_session)
    (n : nat) (u : RollingBloomDBGVertex) (g : RollingBloomDBG BF) :
  consistent numHashes u ->
  out_degree (alphabet_fuel + n) u g
  = Some (Z.of_nat (length
       (List.filter (fun c => vertex_exists (candidate SENSE u c) g)
                    BASE_CHARS)))
  /\ exists l, adjacency_seq (alphabet_fuel + n) u g = Some l
               /\ out_degree (alphabet_fuel + n) u g
                  = Some (Z.of_nat (length l)).
Proof.
  intros Hu. rewrite out_degree_closed, adjacency_seq_closed. split.
  - rewrite (neighbours_independent numHashes Hk SENSE u g Hu).
    by rewrite length_map.
  - by eexists.
Qed.

Lemma C4_witness :
  @out_degree Ref.test_session Ref.test_hash _ Ref.bloom_ops
    (alphabet_fuel + 0) (Ref.V "GACTC") Ref.test_graph
  = Some (Z.of_nat (length
       (List.filter
          (fun c => vertex_exists
                      (@candidate Ref.test_session Ref.test_hash SENSE
                         (Ref.V "GACTC") c)
                      Ref.test_graph)
          BASE_CHARS)))
  /\ exists l,
       @adjacency_seq Ref.test_session Ref.test_hash _ Ref.bloom_ops
         (alphabet_fuel + 0) (Ref.V "GACTC") Ref.test_graph = Some l
       /\ @out_degree Ref.test_session Ref.test_hash _ Ref.bloom_ops
            (alphabet_fuel + 0) (Ref.V "GACTC") Ref.test_graph
          = Some (Z.of_nat (length l)).
Proof.
  apply (@C4_out_degree_counts_passing_candidates Ref.test_session
           Ref.test_hash _ Ref.bloom_ops 2 (RefFacts.contract 5 2)).
  - split; reflexivity.
  - split; reflexivity.
Defined.

(** ** C10: adjacency and out-edge iteration march in step *)

Section Aligned.
Context `{HI : RollingHashImpl} {BF : Type} `{BO : BloomFilterOps BF}.

Lemma wrap_cursor (i : Z) :
  0 <= i -> i < NUM_BASES -> wrap16 (i + 1) = i + 1 /\ wrap32 (i + 1) = i + 1.
Proof.
  unfold NUM_BASES, wrap16, wrap32. intros H0 H4.
  split; apply Z.mod_small; lia.
Qed.

Lemma next_loop_aligned (f : nat) (g : RollingBloomDBG BF) ua uo :
  forall w i, 0 <= i ->
  exists w' i', 0 <= i'
    /\ adjacency_iterator.next_loop f (adjacency_iterator.mk g ua w i)
       = adjacency_iterator.mk g ua w' i'
    /\ out_edge_iterator.next_loop f (out_edge_iterator.mk g uo w i)
       = out_edge_iterator.mk g uo w' i'.
Proof.
  induction f as [|f IH]; intros w i Hi; [by exists w, i|].
  cbn [adjacency_iterator.next_loop out_edge_iterator.next_loop
       adjacency_iterator.m_i adjacency_iterator.m_v adjacency_iterator.m_g
       adjacency_iterator.m_u out_edge_iterator.m_i out_edge_iterator.m_v
       out_edge_iterator.m_g out_edge_iterator.m_u].
  destruct (i <? NUM_BASES) eqn:Hlt; [|by exists w, i].
  apply Z.ltb_lt in Hlt.
  destruct (vertex_exists (setLastBase SENSE (base_at i) w) g).
  - by eexists _, i.
  - destruct (wrap_cursor i Hi Hlt) as [-> ->]. apply IH. lia.
Qed.

Lemma range_aligned (fuel : nat) (g g1 g2 : RollingBloomDBG BF) ua uo :
  forall w i, 0 <= i ->
  range_elements fuel (adjacency_iterator.mk g ua w i)
    (adjacency_iterator.end_ g1)
  = map target <$>
      range_elements fuel (out_edge_iterator.mk g uo w i)
        (out_edge_iterator.end_ g2).
Proof.
  induction fuel as [|fuel IH]; intros w i Hi;
    cbn [range_elements it_eqb it_deref it_incr
         adjacency_iterator.input_iterator out_edge_iterator.input_iterator];
    unfold adjacency_iterator.eqb, out_edge_iterator.eqb,
      adjacency_iterator.deref, out_edge_iterator.deref,
      adjacency_iterator.incr, out_edge_iterator.incr,
      adjacency_iterator.next, out_edge_iterator.next;
    cbn [adjacency_iterator.m_i adjacency_iterator.m_v adjacency_iterator.m_g
         adjacency_iterator.m_u out_edge_iterator.m_i out_edge_iterator.m_v
         out_edge_iterator.m_g out_edge_iterator.m_u
         adjacency_iterator.end_ out_edge_iterator.end_];
    destruct (i =? NUM_BASES); try done.
  destruct (i <? NUM_BASES) eqn:Hlt; [|done].
  apply Z.ltb_lt in Hlt.
  destruct (wrap_cursor i Hi Hlt) as [-> ->].
  destruct (next_loop_aligned (Z.to_nat NUM_BASES) g ua uo w (i + 1))
    as (w' & i' & Hi' & -> & ->); [lia|].
  rewrite (IH w' i' Hi').
  by destruct (range_elements fuel _ _).
Qed.
End Aligned.

(** C10.  Whatever the fuel, the vertices that [adjacent_vertices(u, g)]
    yields are, element by element and in the same order, the targets of
    the edges that [out_edges(u, g)] yields; with fuel for one pass over the
    alphabet both ranges are exhausted. *)
Theorem C10_adjacency_is_out_edge_targets
    `{HI : RollingHashImpl} {BF : Type} `{BO : BloomFilterOps BF}
    (u : RollingBloomDBGVertex) (g : RollingBloomDBG BF) :
  (forall fuel : nat,
     adjacency_seq fuel u g = map target <$> out_edge_seq fuel u g)
  /\ (forall n : nat, is_Some (adjacency_seq (alphabet_fuel + n) u g)).
Proof.
  split.
  - intros fuel.
    unfold adjacency_seq, out_edge_seq, adjacent_vertices, out_edges,
      adjacency_iterator.begin_, out_edge_iterator.begin_,
      adjacency_iterator.next, out_edge_iterator.next.
    cbn [fst snd adjacency_iterator.m_i adjacency_iterator.m_v
         adjacency_iterator.m_g adjacency_iterator.m_u
         out_edge_iterator.m_i out_edge_iterator.m_v
         out_edge_iterator.m_g out_edge_iterator.m_u].
    destruct (next_loop_aligned (Z.to_nat NUM_BASES) g u u
                (shift SENSE "A" (clone u)) 0)
      as (w' & i' & Hi' & -> & ->); [done|].
    by apply range_aligned.
  - intros n. rewrite adjacency_seq_closed. by eexists.
Qed.

(** ** C9: iterators compare by cursor alone *)

(** C9.  For each of the three iterators, two instances compare equal
    exactly when their alphabet cursors are equal, whatever graph, origin
    vertex and working vertex each holds; an iterator whose cursor is
    [NUM_BASES] compares equal to the end iterator of every graph. *)
Theorem C9_iterators_compare_by_cursor {BF : Type}
    (g g' g'' : RollingBloomDBG BF)
    (u u' v v' : RollingBloomDBGVertex) (i j : Z) :
  (adjacency_iterator.eqb (adjacency_iterator.mk g u v i)
     (adjacency_iterator.mk g' u' v' j) = true <-> i = j)
  /\ (out_edge_iterator.eqb (out_edge_iterator.mk g u v i)
        (out_edge_iterator.mk g' u' v' j) = true <-> i = j)
  /\ (in_edge_iterator.eqb (in_edge_iterator.mk g u v i)
        (in_edge_iterator.mk g' u' v' j) = true <-> i = j)
  /\ adjacency_iterator.eqb (adjacency_iterator.mk g u v NUM_BASES)
       (adjacency_iterator.end_ g'') = true
  /\ out_edge_iterator.eqb (out_edge_iterator.mk g u v NUM_BASES)
       (out_edge_iterator.end_ g'') = true
  /\ in_edge_iterator.eqb (in_edge_iterator.mk g u v NUM_BASES)
       (in_edge_iterator.end_ g'') = true.
Proof.
  unfold adjacency_iterator.eqb, out_edge_iterator.eqb, in_edge_iterator.eqb.
  cbn [adjacency_iterator.m_i out_edge_iterator.m_i in_edge_iterator.m_i
       adjacency_iterator.end_ out_edge_iterator.end_ in_edge_iterator.end_].
  repeat split; try apply Z.eqb_eq; try done.
Qed.

(** ** C2: the enumeration protocol *)

Section Protocol.
Context `{HI : RollingHashImpl}.
Context (Hk : valid_session).

Lemma substitute_each_kmers dir w cs :
  map m_kmer (substitute_each dir w cs)
  = map (fun c => <[last_index dir := c]> (m_kmer w)) cs.
Proof.
  assert (Hgen : forall w',
    (forall c, <[last_index dir := c]> (m_kmer w')
               = <[last_index dir := c]> (m_kmer w)) ->
    map m_kmer (substitute_each dir w' cs)
    = map (fun c => <[last_index dir := c]> (m_kmer w)) cs).
  { induction cs as [|c cs IH]; intros w' Heq; [done|].
    cbn [substitute_each map]. rewrite (setLastBase_kmer Hk), Heq. f_equal.
    apply IH. intros c'.
    by rewrite (setLastBase_kmer Hk), list_insert_insert_eq, Heq. }
  by apply Hgen.
Qed.

Lemma candidates_kmers dir u :
  length (m_kmer u) = Kmer_length ->
  map m_kmer (candidates dir u)
  = map (candidate_kmer dir (m_kmer u)) BASE_CHARS.
Proof.
  intros Hlen. unfold candidates. rewrite substitute_each_kmers.
  apply map_ext. intros c. cbn [shift clone m_kmer].
  by apply insert_last_index.
Qed.
End Protocol.

(** C2.  Enumerating the neighbours of [u] clones [u], shifts the clone
    once in the chosen direction and substitutes A, C, G, T in that order at
    the newly exposed position, keeping the candidates that pass the
    oracle.  The out-edge iterator yields the pair [(u, w)] for every
    surviving SENSE candidate [w], the in-edge iterator the pair [(w, u)]
    for every surviving ANTISENSE candidate, and the adjacency iterator the
    surviving SENSE candidates themselves. *)
Theorem C2_enumeration_protocol
    `{HI : RollingHashImpl} {BF : Type} `{BO : BloomFilterOps BF}
    (Hk : valid_session)
    (n : nat) (u : RollingBloomDBGVertex) (g : RollingBloomDBG BF) :
  length (m_kmer u) = Kmer_length ->
  (forall dir,
     candidates dir u
     = substitute_each dir (shift dir "A" (clone u))
         (list_ascii_of_string "ACGT")
     /\ map m_kmer (candidates dir u)
        = map (candidate_kmer dir (m_kmer u)) (list_ascii_of_string "ACGT"))
  /\ out_edge_seq (alphabet_fuel + n) u g
     = Some (map (fun w => (u, w))
               (List.filter (fun w => vertex_exists w g) (candidates SENSE u)))
  /\ in_edge_seq (alphabet_fuel + n) u g
     = Some (map (fun w => (w, u))
               (List.filter (fun w => vertex_exists w g)
                  (candidates ANTISENSE u)))
  /\ adjacency_seq (alphabet_fuel + n) u g
     = Some (List.filter (fun w => vertex_exists w g) (candidates SENSE u)).
Proof.
  intros Hlen. split; [|split; [|split]].
  - intros dir. split; [done|]. by apply candidates_kmers.
  - apply out_edge_seq_closed.
  - apply in_edge_seq_closed.
  - apply adjacency_seq_closed.
Qed.

Lemma C2_witness :
  (forall dir,
     @candidates Ref.test_session Ref.test_hash dir (Ref.V "GACTC")
     = @substitute_each Ref.test_session Ref.test_hash dir
         (@shift Ref.test_session Ref.test_hash dir "A"
            (clone (Ref.V "GACTC")))
         (list_ascii_of_string "ACGT")
     /\ map m_kmer
          (@candidates Ref.test_session Ref.test_hash dir (Ref.V "GACTC"))
        = map (candidate_kmer dir (m_kmer (Ref.V "GACTC")))
            (list_ascii_of_string "ACGT"))
  /\ @out_edge_seq Ref.test_session Ref.test_hash _ Ref.bloom_ops
       (alphabet_fuel + 0) (Ref.V "GACTC") Ref.test_graph
     = Some (map (fun w => (Ref.V "GACTC", w))
               (List.filter (fun w => vertex_exists w Ref.test_graph)
                  (@candidates Ref.test_session Ref.test_hash SENSE
                     (Ref.V "GACTC"))))
  /\ @in_edge_seq Ref.test_session Ref.test_hash _ Ref.bloom_ops
       (alphabet_fuel + 0) (Ref.V "GACTC") Ref.test_graph
     = Some (map (fun w => (w, Ref.V "GACTC"))
               (List.filter (fun w => vertex_exists w Ref.test_graph)
                  (@candidates Ref.test_session Ref.test_hash ANTISENSE
                     (Ref.V "GACTC"))))
  /\ @adjacency_seq Ref.test_session Ref.test_hash _ Ref.bloom_ops
       (alphabet_fuel + 0) (Ref.V "GACTC") Ref.test_graph
     = Some (List.filter (fun w => vertex_exists w Ref.test_graph)
               (@candidates Ref.test_session Ref.test_hash SENSE
                  (Ref.V "GACTC"))).
Proof.
  apply (@C2_enumeration_protocol Ref.test_session Ref.test_hash _
           Ref.bloom_ops).
  - split; reflexivity.
  - reflexivity.
Defined.

(** ** C3: vertex equality *)

Section VertexEquality.
Context `{S : Session}.

Lemma LightweightKmer_eq_spec (a b : kmer_buf) :
  length a = Kmer_length -> length b = Kmer_length ->
  LightweightKmer_eq a b = true
  <-> forall i : nat, (i < Kmer_length)%nat -> significant i = true ->
        a !! i = b !! i.
Proof.
  intros Ha Hb. unfold LightweightKmer_eq. rewrite forallb_forall.
  split.
  - intros Hall i Hi Hsig.
    specialize (Hall i). rewrite in_seq in Hall.
    assert (Hrange : (0 <= i < 0 + Kmer_length)%nat) by lia.
    specialize (Hall Hrange). rewrite Hsig in Hall. cbn in Hall.
    apply bool_decide_eq_true in Hall.
    assert (Hia : (i < length a)%nat) by lia.
    assert (Hib : (i < length b)%nat) by lia.
    destruct (lookup_lt_is_Some_2 a i Hia) as [x Hx].
    destruct (lookup_lt_is_Some_2 b i Hib) as [y Hy].
    rewrite Hx, Hy. f_equal.
    rewrite <- (nth_lookup_Some a i "000"%char x Hx).
    by rewrite <- (nth_lookup_Some b i "000"%char y Hy).
  - intros Hagree i Hin. apply in_seq in Hin.
    destruct (significant i) eqn:Hsig; [|done]. cbn.
    apply bool_decide_eq_true.
    assert (Hi : (i < Kmer_length)%nat) by lia.
    specialize (Hagree i Hi Hsig).
    by rewrite !nth_lookup, Hagree.
Qed.
End VertexEquality.

(** C3.  For vertices [u] and [v] of the same session (k-mers of
    [Kmer::length()] symbols, one mask), [u == v] holds exactly when their
    hash states are equal and their k-mers agree at every position the mask
    leaves significant; when the hash states differ the comparison answers
    false after the hash comparison alone, the k-mers are not compared. *)
Theorem C3_vertex_equality `{S : Session} (u v : RollingBloomDBGVertex) :
  length (m_kmer u) = Kmer_length ->
  length (m_kmer v) = Kmer_length ->
  (Vertex_eq u v = true
   <-> m_rollingHash u = m_rollingHash v
       /\ forall i : nat, (i < Kmer_length)%nat -> significant i = true ->
            m_kmer u !! i = m_kmer v !! i)
  /\ (m_rollingHash u <> m_rollingHash v ->
      Vertex_eq_trace u v = (false, [CmpHash])).
Proof.
  intros Hu Hv. unfold Vertex_eq, Vertex_eq_trace, RollingHash_ne. split.
  - destruct (bool_decide (m_rollingHash u = m_rollingHash v)) eqn:Hh;
      cbn [negb fst].
    + apply bool_decide_eq_true in Hh.
      rewrite (LightweightKmer_eq_spec _ _ Hu Hv).
      split; [by intros Hag; split | by intros [_ Hag]].
    + apply bool_decide_eq_false in Hh.
      split; [done | by intros [Heq _]].
  - intros Hne. by rewrite bool_decide_eq_false_2.
Qed.

Lemma C3_witness :
  let S := masked_session 5 "11011" in
  let u := mkVertex (list_ascii_of_string "GACTC") [7; 11] in
  let v := mkVertex (list_ascii_of_string "GAGTC") [7; 11] in
  (@Vertex_eq S u v = true
   <-> m_rollingHash u = m_rollingHash v
       /\ forall i : nat, (i < 5)%nat -> @significant S i = true ->
            m_kmer u !! i = m_kmer v !! i)
  /\ (m_rollingHash u <> m_rollingHash v ->
      @Vertex_eq_trace S u v = (false, [CmpHash])).
Proof.
  apply (@C3_vertex_equality (masked_session 5 "11011")); reflexivity.
Defined.

(** ** C5: out-neighbours and in-neighbours *)

Section Symmetry.
Context `{HI : RollingHashImpl} {BF : Type} `{BO : BloomFilterOps BF}.
Context (numHashes : nat) {HC : RollingHashContract numHashes}.
Context (Hk : valid_session).

Lemma consistent_eq u v :
  consistent numHashes u -> consistent numHashes v ->
  m_kmer u = m_kmer v -> u = v.
Proof.
  intros [_ Hu] [_ Hv] Hkm. destruct u as [ku hu], v as [kv hv].
  unfold fresh_hash in *. cbn in *. by subst.
Qed.


End Symmetry.




(** * Further properties of the header and its tests *)

(** ** Degrees and empty ranges *)

Section Degrees.
Context `{HI : RollingHashImpl} {BF : Type} `{BO : BloomFilterOps BF}.

(** X1.  With fuel for one pass over the alphabet, [out_degree(u, g)] is
    the number of edges that [out_edges(u, g)] yields and [in_degree(u, g)]
    the number that [in_edges(u, g)] yields; both lie between 0 and 4. *)
Theorem X1_degrees_count_edges (n : nat) (u : RollingBloomDBGVertex)
    (g : RollingBloomDBG BF) :
  exists (lo li : list edge_descriptor),
    out_edge_seq (alphabet_fuel + n) u g = Some lo
    /\ in_edge_seq (alphabet_fuel + n) u g = Some li
    /\ out_degree (alphabet_fuel + n) u g = Some (Z.of_nat (length lo))
    /\ in_degree (alphabet_fuel + n) u g = Some (Z.of_nat (length li))
    /\ (length lo <= 4)%nat /\ (length li <= 4)%nat.
Proof.
  rewrite out_edge_seq_closed, in_edge_seq_closed, out_degree_closed,
    in_degree_closed.
  eexists _, _. repeat split; rewrite ?length_map; try done;
    apply neighbours_length.
Qed.

Lemma range_nil_iff_begin_end {It Val} `{InputIterator It Val}
    (fuel : nat) (first last : It) (l : list Val) :
  range_elements fuel first last = Some l ->
  (it_eqb first last = true <-> l = []).
Proof.
  destruct fuel as [|fuel]; cbn [range_elements];
    destruct (it_eqb first last) eqn:E.
  - intros [= <-]. done.
  - done.
  - intros [= <-]. done.
  - destruct (it_deref first); [|done]. destruct (it_incr first); [|done].
    destruct (range_elements fuel _ _); [|done]. cbn. intros [= <-].
    split; done.
Qed.

Lemma filter_nil_iff {A} (f : A -> bool) (l : list A) :
  List.filter f l = [] <-> forall x, In x l -> f x = false.
Proof.
  induction l as [|a l IH]; cbn [List.filter]; [done|].
  destruct (f a) eqn:E.
  - split; [done|]. intros Hall. specialize (Hall a (or_introl eq_refl)).
    congruence.
  - rewrite IH. split.
    + intros Hall x [<- | Hx]; [done|by apply Hall].
    + intros Hall x Hx. apply Hall. by right.
Qed.

(** X2.  The begin iterator of a range compares equal to the end iterator
    (of any graph) exactly when the oracle rejects every one of the four
    candidates: an adjacency, out-edge or in-edge range is empty only
    then. *)
Theorem X2_empty_range_iff_all_rejected (u : RollingBloomDBGVertex)
    (g g' : RollingBloomDBG BF) :
  (adjacency_iterator.eqb (adjacency_iterator.begin_ g u)
     (adjacency_iterator.end_ g') = true
   <-> forall w, In w (candidates SENSE u) -> vertex_exists w g = false)
  /\ (out_edge_iterator.eqb (out_edge_iterator.begin_ g u)
        (out_edge_iterator.end_ g') = true
      <-> forall w, In w (candidates SENSE u) -> vertex_exists w g = false)
  /\ (in_edge_iterator.eqb (in_edge_iterator.begin_ g u)
        (in_edge_iterator.end_ g') = true
      <-> forall w, In w (candidates ANTISENSE u) -> vertex_exists w g = false).
Proof.
  pose proof (adjacency_seq_closed 0 u g) as Ha.
  pose proof (out_edge_seq_closed 0 u g) as Ho.
  pose proof (in_edge_seq_closed 0 u g) as Hi.
  unfold adjacency_seq, out_edge_seq, in_edge_seq, adjacent_vertices,
    out_edges, in_edges in *. cbn [fst snd] in *.
  assert (Ea : forall a : adjacency_iterator.t BF,
            adjacency_iterator.eqb a (adjacency_iterator.end_ g')
            = adjacency_iterator.eqb a (adjacency_iterator.end_ g)) by done.
  assert (Eo : forall a : out_edge_iterator.t BF,
            out_edge_iterator.eqb a (out_edge_iterator.end_ g')
            = out_edge_iterator.eqb a (out_edge_iterator.end_ g)) by done.
  assert (Ei : forall a : in_edge_iterator.t BF,
            in_edge_iterator.eqb a (in_edge_iterator.end_ g')
            = in_edge_iterator.eqb a (in_edge_iterator.end_ g)) by done.
  rewrite Ea, Eo, Ei.
  apply range_nil_iff_begin_end in Ha, Ho, Hi.
  cbn [it_eqb adjacency_iterator.input_iterator
       out_edge_iterator.input_iterator in_edge_iterator.input_iterator]
    in Ha, Ho, Hi.
  rewrite Ha, Ho, Hi. unfold neighbours.
  split; [|split].
  - apply filter_nil_iff.
  - rewrite <- (filter_nil_iff (fun w => vertex_exists w g)).
    split; [by destruct (List.filter _ _)|by intros ->].
  - rewrite <- (filter_nil_iff (fun w => vertex_exists w g)).
    split; [by destruct (List.filter _ _)|by intros ->].
Qed.
End Degrees.

(** ** The cursor *)

Section Cursor.
Context `{HI : RollingHashImpl} {BF : Type} `{BO : BloomFilterOps BF}.

Ltac cursor_bounds IH :=
  match goal with
  | |- context [?i <? NUM_BASES] =>
      destruct (i <? NUM_BASES) eqn:Hlt; [|cbn; repeat split; lia];
      apply Z.ltb_lt in Hlt;
      match goal with
      | |- context [vertex_exists ?w ?g] =>
          destruct (vertex_exists w g); [cbn; repeat split; lia|]
      end;
      destruct (wrap_cursor i ltac:(lia) Hlt) as [Hw16 Hw32];
      rewrite ?Hw16, ?Hw32;
      edestruct IH as (Hb & Hg & Hu); [|split; [|split]; [|exact Hg|exact Hu]];
      unfold NUM_BASES in *; lia
  end.

Lemma adjacency_next_loop_cursor (f : nat) (g : RollingBloomDBG BF) u :
  forall v i, 0 <= i <= NUM_BASES ->
  let it' := adjacency_iterator.next_loop f (adjacency_iterator.mk g u v i) in
  i <= adjacency_iterator.m_i it' <= NUM_BASES
  /\ adjacency_iterator.m_g it' = g /\ adjacency_iterator.m_u it' = u.
Proof.
  induction f as [|f IH]; intros v i Hi; [cbn; repeat split; lia|].
  cbn [adjacency_iterator.next_loop adjacency_iterator.m_i
       adjacency_iterator.m_v adjacency_iterator.m_g adjacency_iterator.m_u].
  cursor_bounds IH.
Qed.

Lemma out_edge_next_loop_cursor (f : nat) (g : RollingBloomDBG BF) u :
  forall v i, 0 <= i <= NUM_BASES ->
  let it' := out_edge_iterator.next_loop f (out_edge_iterator.mk g u v i) in
  i <= out_edge_iterator.m_i it' <= NUM_BASES
  /\ out_edge_iterator.m_g it' = g /\ out_edge_iterator.m_u it' = u.
Proof.
  induction f as [|f IH]; intros v i Hi; [cbn; repeat split; lia|].
  cbn [out_edge_iterator.next_loop out_edge_iterator.m_i
       out_edge_iterator.m_v out_edge_iterator.m_g out_edge_iterator.m_u].
  cursor_bounds IH.
Qed.

Lemma in_edge_next_loop_cursor (f : nat) (g : RollingBloomDBG BF) u :
  forall v i, 0 <= i <= NUM_BASES ->
  let it' := in_edge_iterator.next_loop f (in_edge_iterator.mk g u v i) in
  i <= in_edge_iterator.m_i it' <= NUM_BASES
  /\ in_edge_iterator.m_g it' = g /\ in_edge_iterator.m_u it' = u.
Proof.
  induction f as [|f IH]; intros v i Hi; [cbn; repeat split; lia|].
  cbn [in_edge_iterator.next_loop in_edge_iterator.m_i
       in_edge_iterator.m_v in_edge_iterator.m_g in_edge_iterator.m_u].
  cursor_bounds IH.
Qed.

(** X3.  [operator++] on an iterator that is not at the end moves the
    cursor strictly forward without passing [NUM_BASES], keeps the graph and
    the origin vertex, and stops at the end or on a vertex that passes the
    oracle.  On an iterator at the end the assertion of [operator++] fails,
    and so does the one of [operator*]. *)
Theorem X3_increment_advances_cursor
    (ia : adjacency_iterator.t BF) (io : out_edge_iterator.t BF)
    (ii : in_edge_iterator.t BF) :
  0 <= adjacency_iterator.m_i ia ->
  0 <= out_edge_iterator.m_i io ->
  0 <= in_edge_iterator.m_i ii ->
  match adjacency_iterator.incr ia with
  | Some it' =>
      adjacency_iterator.m_i ia < adjacency_iterator.m_i it' <= NUM_BASES
      /\ adjacency_iterator.m_g it' = adjacency_iterator.m_g ia
      /\ adjacency_iterator.m_u it' = adjacency_iterator.m_u ia
      /\ (adjacency_iterator.m_i it' = NUM_BASES
          \/ vertex_exists (adjacency_iterator.m_v it')
               (adjacency_iterator.m_g ia) = true)
  | None =>
      NUM_BASES <= adjacency_iterator.m_i ia
      /\ adjacency_iterator.deref ia = None
  end
  /\ match out_edge_iterator.incr io with
     | Some it' =>
         out_edge_iterator.m_i io < out_edge_iterator.m_i it' <= NUM_BASES
         /\ out_edge_iterator.m_g it' = out_edge_iterator.m_g io
         /\ out_edge_iterator.m_u it' = out_edge_iterator.m_u io
         /\ (out_edge_iterator.m_i it' = NUM_BASES
             \/ vertex_exists (out_edge_iterator.m_v it')
                  (out_edge_iterator.m_g io) = true)
     | None =>
         NUM_BASES <= out_edge_iterator.m_i io
         /\ out_edge_iterator.deref io = None
     end
  /\ match in_edge_iterator.incr ii with
     | Some it' =>
         in_edge_iterator.m_i ii < in_edge_iterator.m_i it' <= NUM_BASES
         /\ in_edge_iterator.m_g it' = in_edge_iterator.m_g ii
         /\ in_edge_iterator.m_u it' = in_edge_iterator.m_u ii
         /\ (in_edge_iterator.m_i it' = NUM_BASES
             \/ vertex_exists (in_edge_iterator.m_v it')
                  (in_edge_iterator.m_g ii) = true)
     | None =>
         NUM_BASES <= in_edge_iterator.m_i ii
         /\ in_edge_iterator.deref ii = None
     end.
Proof.
  destruct ia as [ga ua va a], io as [go uo vo o], ii as [gi ui vi i].
  cbn [adjacency_iterator.m_i out_edge_iterator.m_i in_edge_iterator.m_i
       adjacency_iterator.m_g out_edge_iterator.m_g in_edge_iterator.m_g
       adjacency_iterator.m_u out_edge_iterator.m_u in_edge_iterator.m_u].
  intros Ha Ho Hi.
  unfold adjacency_iterator.incr, out_edge_iterator.incr,
    in_edge_iterator.incr, adjacency_iterator.deref, out_edge_iterator.deref,
    in_edge_iterator.deref, adjacency_iterator.next, out_edge_iterator.next,
    in_edge_iterator.next.
  cbn [adjacency_iterator.m_i out_edge_iterator.m_i in_edge_iterator.m_i
       adjacency_iterator.m_g out_edge_iterator.m_g in_edge_iterator.m_g
       adjacency_iterator.m_u out_edge_iterator.m_u in_edge_iterator.m_u
       adjacency_iterator.m_v out_edge_iterator.m_v in_edge_iterator.m_v].
  split; [|split].
  - destruct (a <? NUM_BASES) eqn:Hlt; [|split; [by apply Z.ltb_ge|done]].
    apply Z.ltb_lt in Hlt. destruct (wrap_cursor a Ha Hlt) as [-> _].
    pose proof (adjacency_next_loop_cursor (Z.to_nat NUM_BASES) ga ua va
                  (a + 1)) as Hc.
    pose proof (adjacency_next_loop_exits (Z.to_nat NUM_BASES)
                  (adjacency_iterator.mk ga ua va (a + 1))) as He.
    cbn zeta in Hc, He. cbn [adjacency_iterator.m_i] in He.
    assert (H0 : 0 <= a + 1) by lia.
    assert (Hf : NUM_BASES - (a + 1) <= Z.of_nat (Z.to_nat NUM_BASES))
      by (unfold NUM_BASES; lia).
    assert (H4 : 0 <= a + 1 <= NUM_BASES) by lia.
    destruct (Hc H4) as (Hb & Hg & Hu).
    destruct (He H0 Hf) as [Hend | Hex].
    + repeat split; try done; lia.
    + rewrite Hg in Hex. repeat split; try done; try lia; by right.
  - destruct (o <? NUM_BASES) eqn:Hlt; [|split; [by apply Z.ltb_ge|done]].
    apply Z.ltb_lt in Hlt. destruct (wrap_cursor o Ho Hlt) as [_ ->].
    pose proof (out_edge_next_loop_cursor (Z.to_nat NUM_BASES) go uo vo
                  (o + 1)) as Hc.
    pose proof (out_edge_next_loop_exits (Z.to_nat NUM_BASES)
                  (out_edge_iterator.mk go uo vo (o + 1))) as He.
    cbn zeta in Hc, He. cbn [out_edge_iterator.m_i] in He.
    assert (H0 : 0 <= o + 1) by lia.
    assert (Hf : NUM_BASES - (o + 1) <= Z.of_nat (Z.to_nat NUM_BASES))
      by (unfold NUM_BASES; lia).
    assert (H4 : 0 <= o + 1 <= NUM_BASES) by lia.
    destruct (Hc H4) as (Hb & Hg & Hu).
    destruct (He H0 Hf) as [Hend | Hex].
    + repeat split; try done; lia.
    + rewrite Hg in Hex. repeat split; try done; try lia; by right.
  - destruct (i <? NUM_BASES) eqn:Hlt; [|split; [by apply Z.ltb_ge|done]].
    apply Z.ltb_lt in Hlt. destruct (wrap_cursor i Hi Hlt) as [_ ->].
    pose proof (in_edge_next_loop_cursor (Z.to_nat NUM_BASES) gi ui vi
                  (i + 1)) as Hc.
    pose proof (in_edge_next_loop_exits (Z.to_nat NUM_BASES)
                  (in_edge_iterator.mk gi ui vi (i + 1))) as He.
    cbn zeta in Hc, He. cbn [in_edge_iterator.m_i] in He.
    assert (H0 : 0 <= i + 1) by lia.
    assert (Hf : NUM_BASES - (i + 1) <= Z.of_nat (Z.to_nat NUM_BASES))
      by (unfold NUM_BASES; lia).
    assert (H4 : 0 <= i + 1 <= NUM_BASES) by lia.
    destruct (Hc H4) as (Hb & Hg & Hu).
    destruct (He H0 Hf) as [Hend | Hex].
    + repeat split; try done; lia.
    + rewrite Hg in Hex. repeat split; try done; try lia; by right.
Qed.
End Cursor.

(** ** Edges of the de Bruijn graph *)

Section Overlap.
Context `{HI : RollingHashImpl} {BF : Type} `{BO : BloomFilterOps BF}.
Context (Hk : valid_session).

Lemma NoDup_map_filter {A B} (f : A -> B) (p : A -> bool) (l : list A) :
  List.NoDup (map f l) -> List.NoDup (map f (List.filter p l)).
Proof.
  induction l as [|a l IH]; cbn [map List.filter]; [done|].
  intros Hnd. apply List.NoDup_cons_iff in Hnd as [Hnin Hnd].
  destruct (p a); cbn [map]; [|by apply IH].
  apply List.NoDup_cons; [|by apply IH].
  intros Hin. apply Hnin. apply in_map_iff in Hin as (x & Hx & Hin).
  apply filter_In in Hin as [Hin _]. apply in_map_iff. eauto.
Qed.

Lemma candidate_kmers_NoDup dir (s : kmer_buf) :
  List.NoDup (map (candidate_kmer dir s) BASE_CHARS).
Proof.
  change BASE_CHARS with ["A"; "C"; "G"; "T"]%char.
  destruct dir; cbn [map candidate_kmer];
    repeat (apply List.NoDup_cons; [cbn; intros Hin|]);
    try apply List.NoDup_nil;
    repeat (destruct Hin as [Hin | Hin];
            [first [apply app_inv_head in Hin | idtac]; discriminate Hin|]);
    done.
Qed.

Lemma neighbours_kmers dir u (g : RollingBloomDBG BF) w :
  length (m_kmer u) = Kmer_length ->
  In w (neighbours dir u g) ->
  vertex_exists w g = true
  /\ exists c, In c BASE_CHARS /\ m_kmer w = candidate_kmer dir (m_kmer u) c.
Proof.
  intros Hlen Hin. apply filter_In in Hin as [Hin Hex]. split; [done|].
  apply (in_map m_kmer) in Hin. rewrite (candidates_kmers Hk dir u Hlen) in Hin.
  apply in_map_iff in Hin as (c & Hc & Hin). eauto.
Qed.

(** X4.  Every edge of [out_edges(u, g)] has source [u] and a target that
    passes the oracle, holds [Kmer::length()] symbols and is [u] moved one
    position to the right: it starts with the last k-1 symbols of [u] and
    ends in an alphabet symbol.  Every edge of [in_edges(u, g)] has target
    [u] and a source that passes the oracle and is [u] moved one position
    to the left. *)
Theorem X4_neighbours_overlap (n : nat) (u : RollingBloomDBGVertex)
    (g : RollingBloomDBG BF) :
  length (m_kmer u) = Kmer_length ->
  exists (lo li : list edge_descriptor),
    out_edge_seq (alphabet_fuel + n) u g = Some lo
    /\ in_edge_seq (alphabet_fuel + n) u g = Some li
    /\ Forall (fun e =>
         source e = u /\ vertex_exists (target e) g = true
         /\ length (m_kmer (target e)) = Kmer_length
         /\ removelast (m_kmer (target e)) = tl (m_kmer u)
         /\ exists c, In c BASE_CHARS
                      /\ m_kmer (target e) = tl (m_kmer u) ++ [c]) lo
    /\ Forall (fun e =>
         target e = u /\ vertex_exists (source e) g = true
         /\ length (m_kmer (source e)) = Kmer_length
         /\ tl (m_kmer (source e)) = removelast (m_kmer u)
         /\ exists c, In c BASE_CHARS
                      /\ m_kmer (source e) = c :: removelast (m_kmer u)) li.
Proof.
  intros Hlen. rewrite out_edge_seq_closed, in_edge_seq_closed.
  eexists _, _. split; [done|]. split; [done|].
  assert (Hk' := Hk). unfold valid_session in Hk'.
  split; apply List.Forall_forall; intros e He;
    apply in_map_iff in He as (w & <- & Hw);
    apply (neighbours_kmers _ _ _ _ Hlen) in Hw as (Hex & c & Hc & Hkm);
    cbn [source target fst snd candidate_kmer] in *; rewrite Hkm.
  - repeat split; try done.
    + destruct (m_kmer u); [cbn in Hlen; lia|].
      rewrite length_app. cbn in *. lia.
    + by rewrite removelast_last.
    + eauto.
  - repeat split; try done.
    + cbn [length]. destruct (m_kmer u) as [|a t] using rev_ind;
        [cbn in Hlen; lia|].
      rewrite removelast_last. rewrite length_app in Hlen. cbn in *. lia.
    + eauto.
Qed.

Lemma Vertex_eq_differ (x e : RollingBloomDBGVertex) (i : nat) :
  (i < Kmer_length)%nat -> significant i = true ->
  nth i (m_kmer e) "000"%char <> nth i (m_kmer x) "000"%char ->
  Vertex_eq e x = false.
Proof.
  intros Hi Hsig Hne.
  unfold Vertex_eq, Vertex_eq_trace, RollingHash_ne.
  destruct (bool_decide (m_rollingHash e = m_rollingHash x));
    cbn [negb fst]; [|done].
  destruct (LightweightKmer_eq (m_kmer e) (m_kmer x)) eqn:Heq; [|done].
  unfold LightweightKmer_eq in Heq. rewrite forallb_forall in Heq.
  specialize (Heq i). rewrite in_seq, Hsig in Heq. cbn [negb orb] in Heq.
  assert (Hrange : (0 <= i < 0 + Kmer_length)%nat) by lia.
  apply Heq, bool_decide_eq_true in Hrange. done.
Qed.

Lemma lookup_map {A B} (f : A -> B) (l : list A) (i : nat) :
  map f l !! i = f <$> (l !! i).
Proof.
  revert i. induction l as [|a l IH]; intros [|i]; cbn;
    first [done | apply IH].
Qed.

Lemma candidate_kmer_exposed dir (s : kmer_buf) (c : ascii) :
  length s = Kmer_length ->
  nth (last_index dir) (candidate_kmer dir s c) "000"%char = c.
Proof.
  assert (Hk' := Hk). unfold valid_session in Hk'. intros Hlen.
  destruct dir; cbn [last_index candidate_kmer nth]; [|done].
  destruct s as [|a t]; [cbn in Hlen; lia|]. cbn [tl length] in *.
  replace (Kmer_length - 1)%nat with (length t) by lia.
  apply nth_middle.
Qed.

Lemma neighbours_pairwise_unequal dir (u : RollingBloomDBGVertex)
    (g : RollingBloomDBG BF) :
  length (m_kmer u) = Kmer_length ->
  significant (last_index dir) = true ->
  forall (i j : nat) (w1 w2 : RollingBloomDBGVertex),
    i <> j ->
    neighbours dir u g !! i = Some w1 -> neighbours dir u g !! j = Some w2 ->
    Vertex_eq w1 w2 = false.
Proof.
  intros Hlen Hsig i j w1 w2 Hij H1 H2.
  assert (Hnd : List.NoDup (map m_kmer (neighbours dir u g))).
  { unfold neighbours. apply NoDup_map_filter.
    rewrite (candidates_kmers Hk dir u Hlen). apply candidate_kmers_NoDup. }
  assert (Hne : m_kmer w1 <> m_kmer w2).
  { intros Heq. apply Hij. apply NoDup_ListNoDup in Hnd.
    apply (NoDup_lookup _ i j (m_kmer w1) Hnd); rewrite lookup_map.
    - by rewrite H1.
    - by rewrite H2, Heq. }
  apply list_elem_of_lookup_2, list_elem_of_In in H1, H2.
  apply (neighbours_kmers _ _ _ _ Hlen) in H1 as (_ & c1 & _ & Hk1).
  apply (neighbours_kmers _ _ _ _ Hlen) in H2 as (_ & c2 & _ & Hk2).
  apply (Vertex_eq_differ _ _ (last_index dir));
    [apply (last_index_lt Hk)|done|].
  rewrite Hk1, Hk2, !candidate_kmer_exposed by done.
  intros ->. apply Hne. by rewrite Hk1, Hk2.
Qed.

Lemma candidate_kmers_masked_equal dir (s : kmer_buf) (c1 c2 : ascii) :
  length s = Kmer_length ->
  significant (last_index dir) = false ->
  LightweightKmer_eq (candidate_kmer dir s c1) (candidate_kmer dir s c2)
  = true.
Proof.
  assert (Hk' := Hk). unfold valid_session in Hk'. intros Hlen Hsig.
  unfold LightweightKmer_eq. apply forallb_forall. intros i Hi.
  apply in_seq in Hi.
  destruct (decide (i = last_index dir)) as [-> | Hne];
    [by rewrite Hsig|].
  rewrite bool_decide_eq_true_2; [apply orb_true_r|].
  destruct dir; cbn [last_index candidate_kmer] in *.
  - destruct s as [|a t]; [cbn in Hlen; lia|]. cbn [tl length] in *.
    rewrite !app_nth1 by lia. done.
  - destruct i as [|i]; [done|]. done.
Qed.

Lemma neighbours_masked_equal dir (u : RollingBloomDBGVertex)
    (g : RollingBloomDBG BF) (w1 w2 : RollingBloomDBGVertex) :
  length (m_kmer u) = Kmer_length ->
  significant (last_index dir) = false ->
  In w1 (neighbours dir u g) -> In w2 (neighbours dir u g) ->
  m_rollingHash w1 = m_rollingHash w2 ->
  Vertex_eq w1 w2 = true.
Proof.
  intros Hlen Hsig H1 H2 Hh.
  apply (neighbours_kmers _ _ _ _ Hlen) in H1 as (_ & c1 & _ & Hk1).
  apply (neighbours_kmers _ _ _ _ Hlen) in H2 as (_ & c2 & _ & Hk2).
  unfold Vertex_eq, Vertex_eq_trace, RollingHash_ne.
  rewrite bool_decide_eq_true_2 by done. cbn [negb fst].
  rewrite Hk1, Hk2. by apply candidate_kmers_masked_equal.
Qed.

(** X5.  No range offers the same k-mer twice: the k-mers of the adjacent
    vertices of [u] are pairwise distinct.  Under [operator==], which is what
    the code compares vertices with, the neighbours are pairwise unequal
    exactly as far as the mask lets it see the position a shift exposes:
    when that position is significant (it always is without a mask), two
    different positions of the adjacency range, of the out-edge range
    (targets) or of the in-edge range (sources) never hold equal vertices;
    when the mask hides the position, two adjacent vertices compare equal
    as soon as their hash states are equal. *)
Theorem X5_neighbours_pairwise_unequal (n : nat) (u : RollingBloomDBGVertex)
    (g : RollingBloomDBG BF) :
  length (m_kmer u) = Kmer_length ->
  exists (la : list RollingBloomDBGVertex) (lo li : list edge_descriptor),
    adjacency_seq (alphabet_fuel + n) u g = Some la
    /\ out_edge_seq (alphabet_fuel + n) u g = Some lo
    /\ in_edge_seq (alphabet_fuel + n) u g = Some li
    /\ List.NoDup (map m_kmer la)
    /\ (significant (last_index SENSE) = true ->
        (forall (i j : nat) w1 w2, i <> j ->
           la !! i = Some w1 -> la !! j = Some w2 -> Vertex_eq w1 w2 = false)
        /\ (forall (i j : nat) e1 e2, i <> j ->
              lo !! i = Some e1 -> lo !! j = Some e2 ->
              Vertex_eq (target e1) (target e2) = false))
    /\ (significant (last_index ANTISENSE) = true ->
        forall (i j : nat) e1 e2, i <> j ->
          li !! i = Some e1 -> li !! j = Some e2 ->
          Vertex_eq (source e1) (source e2) = false)
    /\ (significant (last_index SENSE) = false ->
        forall w1 w2, In w1 la -> In w2 la ->
          m_rollingHash w1 = m_rollingHash w2 -> Vertex_eq w1 w2 = true).
Proof.
  intros Hlen.
  rewrite adjacency_seq_closed, out_edge_seq_closed, in_edge_seq_closed.
  eexists _, _, _. split; [done|]. split; [done|]. split; [done|].
  split; [|split; [|split]].
  - unfold neighbours. apply NoDup_map_filter.
    rewrite (candidates_kmers Hk SENSE u Hlen). apply candidate_kmers_NoDup.
  - intros Hsig. split.
    + by apply neighbours_pairwise_unequal.
    + intros i j e1 e2 Hij H1 H2. rewrite lookup_map in H1, H2.
      destruct (neighbours SENSE u g !! i) as [w1|] eqn:E1; [|done].
      destruct (neighbours SENSE u g !! j) as [w2|] eqn:E2; [|done].
      cbn in H1, H2. injection H1 as <-. injection H2 as <-.
      cbn [target snd].
      by apply (neighbours_pairwise_unequal SENSE u g Hlen Hsig i j).
  - intros Hsig i j e1 e2 Hij H1 H2. rewrite lookup_map in H1, H2.
    destruct (neighbours ANTISENSE u g !! i) as [w1|] eqn:E1; [|done].
    destruct (neighbours ANTISENSE u g !! j) as [w2|] eqn:E2; [|done].
    cbn in H1, H2. injection H1 as <-. injection H2 as <-.
    cbn [source fst].
    by apply (neighbours_pairwise_unequal ANTISENSE u g Hlen Hsig i j).
  - intros Hsig w1 w2 H1 H2 Hh.
    by apply (neighbours_masked_equal SENSE u g).
Qed.
End Overlap.

(** ** Laws of vertex equality *)

Section EqualityLaws.
Context `{S : Session}.

Lemma LightweightKmer_eq_refl (a : kmer_buf) : LightweightKmer_eq a a = true.
Proof.
  unfold LightweightKmer_eq. apply forallb_forall. intros i _.
  rewrite bool_decide_eq_true_2 by done. apply orb_true_r.
Qed.

Lemma LightweightKmer_eq_sym_true (a b : kmer_buf) :
  LightweightKmer_eq a b = true -> LightweightKmer_eq b a = true.
Proof.
  unfold LightweightKmer_eq. rewrite !forallb_forall. intros Hab i Hi.
  specialize (Hab i Hi). destruct (significant i); [|done]. cbn in *.
  apply bool_decide_eq_true in Hab. by apply bool_decide_eq_true.
Qed.

Lemma LightweightKmer_eq_sym (a b : kmer_buf) :
  LightweightKmer_eq a b = LightweightKmer_eq b a.
Proof.
  destruct (LightweightKmer_eq a b) eqn:Hab, (LightweightKmer_eq b a) eqn:Hba;
    try done.
  - apply LightweightKmer_eq_sym_true in Hab. congruence.
  - apply LightweightKmer_eq_sym_true in Hba. congruence.
Qed.

Lemma LightweightKmer_eq_trans (a b c : kmer_buf) :
  LightweightKmer_eq a b = true -> LightweightKmer_eq b c = true ->
  LightweightKmer_eq a c = true.
Proof.
  unfold LightweightKmer_eq. rewrite !forallb_forall. intros Hab Hbc i Hi.
  specialize (Hab i Hi). specialize (Hbc i Hi).
  destruct (significant i); [|done]. cbn in *.
  apply bool_decide_eq_true in Hab, Hbc. apply bool_decide_eq_true. congruence.
Qed.

(** X7.  [operator==] on vertices is reflexive, symmetric and transitive,
    with or without a spaced seed, and [operator!=] is its negation. *)
Theorem X7_vertex_equality_is_equivalence (u v w : RollingBloomDBGVertex) :
  Vertex_eq u u = true
  /\ Vertex_eq u v = Vertex_eq v u
  /\ (Vertex_eq u v = true -> Vertex_eq v w = true -> Vertex_eq u w = true)
  /\ Vertex_ne u v = negb (Vertex_eq v u).
Proof.
  unfold Vertex_ne, Vertex_eq, Vertex_eq_trace, RollingHash_ne.
  split; [|split; [|split]].
  - rewrite bool_decide_eq_true_2 by done. apply LightweightKmer_eq_refl.
  - rewrite (LightweightKmer_eq_sym (m_kmer u) (m_kmer v)).
    destruct (decide (m_rollingHash u = m_rollingHash v)) as [Heq | Hne].
    + by rewrite !bool_decide_eq_true_2.
    + by rewrite !bool_decide_eq_false_2.
  - destruct (decide (m_rollingHash u = m_rollingHash v)) as [Huv | Hne];
      [|by rewrite bool_decide_eq_false_2].
    destruct (decide (m_rollingHash v = m_rollingHash w)) as [Hvw | Hne];
      [|by rewrite (bool_decide_eq_false_2 (m_rollingHash v = _))].
    rewrite !bool_decide_eq_true_2 by congruence. cbn [negb fst].
    apply LightweightKmer_eq_trans.
  - rewrite (LightweightKmer_eq_sym (m_kmer u) (m_kmer v)).
    destruct (decide (m_rollingHash u = m_rollingHash v)) as [Heq | Hne].
    + by rewrite !bool_decide_eq_true_2.
    + by rewrite !bool_decide_eq_false_2.
Qed.
End EqualityLaws.

Section EqualityRespected.
Context `{S : Session} `{HS : RollingHashSeed} {BF : Type} `{BO : BloomFilterOps BF}.

(** X8.  Vertices that compare equal under [operator==] have the same
    [std::hash] value and the same answer from [vertex_exists] in every
    graph. *)
Theorem X8_equal_vertices_hash_and_exist_alike
    (u v : RollingBloomDBGVertex) (g : RollingBloomDBG BF) :
  Vertex_eq u v = true ->
  Vertex_hash u = Vertex_hash v
  /\ vertex_exists u g = vertex_exists v g.
Proof.
  unfold Vertex_eq, Vertex_eq_trace, RollingHash_ne. intros Heq.
  destruct (bool_decide (m_rollingHash u = m_rollingHash v)) eqn:Hh;
    [|done].
  apply bool_decide_eq_true in Hh.
  unfold Vertex_hash, vertex_exists. by rewrite Hh.
Qed.
End EqualityRespected.

(** ** Composing shifts and substitutions *)

Section Composition.
Context `{HI : RollingHashImpl}.
Context (numHashes : nat) {HC : RollingHashContract numHashes}.
Context (Hk : valid_session).

Lemma removelast_length_k (s : kmer_buf) :
  length s = Kmer_length ->
  removelast s ++ [nth (Kmer_length - 1) s "000"%char] = s.
Proof.
  unfold valid_session in Hk. intros Hlen.
  destruct s as [|l t _] using rev_ind; [cbn in Hlen; lia|].
  rewrite length_app in Hlen. cbn [length] in Hlen.
  rewrite removelast_last.
  replace (Kmer_length - 1)%nat with (length t) by lia.
  by rewrite nth_middle.
Qed.

(** X9.  Shifting undoes shifting: after [shift(SENSE, c)], shifting back
    with [shift(ANTISENSE, a)], where [a] is the symbol that was dropped,
    restores a consistent vertex, hash state included; likewise with the two
    directions exchanged. *)
Theorem X9_shift_round_trip (u : RollingBloomDBGVertex) (c : ascii) :
  consistent numHashes u ->
  shift ANTISENSE (nth 0 (m_kmer u) "000"%char) (shift SENSE c u) = u
  /\ shift SENSE (nth (Kmer_length - 1) (m_kmer u) "000"%char)
       (shift ANTISENSE c u) = u.
Proof.
  intros Hu. assert (Hk' := Hk). unfold valid_session in Hk'.
  pose proof (proj1 Hu) as Hlen.
  split; apply (consistent_eq numHashes); try done;
    try (by repeat apply (shift_consistent numHashes Hk));
    cbn [shift m_kmer LightweightKmer_shift tl].
  - destruct (m_kmer u) as [|a t]; [cbn in Hlen; lia|].
    cbn [tl nth]. by rewrite removelast_last.
  - by apply removelast_length_k.
Qed.

(** X10.  The placeholder of [shift] does not matter: shifting a
    consistent vertex with any placeholder and then setting the last base to
    [c] gives the vertex that shifting [c] in directly gives. *)
Theorem X10_placeholder_is_irrelevant (dir : extDirection)
    (u : RollingBloomDBGVertex) (a c : ascii) :
  consistent numHashes u ->
  setLastBase dir c (shift dir a u) = shift dir c u.
Proof.
  intros Hu. pose proof (proj1 Hu) as Hlen.
  apply (consistent_eq numHashes).
  - by apply (setLastBase_consistent numHashes Hk),
      (shift_consistent numHashes Hk).
  - by apply (shift_consistent numHashes Hk).
  - rewrite (setLastBase_kmer Hk). cbn [shift m_kmer].
    rewrite (insert_last_index Hk) by done. by destruct dir.
Qed.

(** X11.  [setLastBase] writes exactly one position of the k-mer: the
    last one for SENSE, the first one for ANTISENSE.  On a consistent vertex
    a second call in the same direction replaces the effect of the first,
    setting the symbol that is already there changes nothing, calls in
    opposite directions commute when k >= 2, and for k = 1 both directions
    write the same position. *)
Theorem X11_setLastBase_overwrites (dir : extDirection)
    (u : RollingBloomDBGVertex) (a c : ascii) :
  consistent numHashes u ->
  setLastBase dir c (setLastBase dir a u) = setLastBase dir c u
  /\ (m_kmer u !! last_index dir = Some c -> setLastBase dir c u = u)
  /\ m_kmer (setLastBase dir c u) !! last_index dir = Some c
  /\ (forall i : nat, i <> last_index dir ->
        m_kmer (setLastBase dir c u) !! i = m_kmer u !! i)
  /\ ((2 <= Kmer_length)%nat ->
      setLastBase SENSE a (setLastBase ANTISENSE c u)
      = setLastBase ANTISENSE c (setLastBase SENSE a u))
  /\ (Kmer_length = 1%nat ->
      setLastBase SENSE a (setLastBase ANTISENSE c u) = setLastBase SENSE a u).
Proof.
  intros Hu. pose proof (proj1 Hu) as Hlen.
  pose proof (last_index_lt Hk dir) as Hlt.
  assert (Hs : forall d x v, consistent numHashes v ->
                 consistent numHashes (setLastBase d x v))
    by (intros; by apply (setLastBase_consistent numHashes Hk)).
  split; [|split; [|split; [|split; [|split]]]].
  - apply (consistent_eq numHashes); [by auto|by auto|].
    rewrite !(setLastBase_kmer Hk). apply list_insert_insert_eq.
  - intros Hc. apply (consistent_eq numHashes); [by auto|done|].
    rewrite (setLastBase_kmer Hk). by apply list_insert_id.
  - rewrite (setLastBase_kmer Hk). apply list_lookup_insert_eq. lia.
  - intros i Hi. rewrite (setLastBase_kmer Hk).
    by apply list_lookup_insert_ne.
  - intros H2. apply (consistent_eq numHashes); [by auto|by auto|].
    rewrite !(setLastBase_kmer Hk). cbn [last_index].
    apply list_insert_insert_ne. lia.
  - intros H1. apply (consistent_eq numHashes); [by auto|by auto|].
    rewrite !(setLastBase_kmer Hk). cbn [last_index]. rewrite H1.
    apply list_insert_insert_eq.
Qed.

Lemma slide_kmer (cs : list ascii) :
  forall s : kmer_buf, length s = Kmer_length ->
  fold_left (fun s c => LightweightKmer_shift SENSE c s) cs s
  = drop (length cs) (s ++ cs).
Proof.
  unfold valid_session in Hk.
  induction cs as [|c cs IH]; intros s Hlen.
  - cbn. by rewrite app_nil_r.
  - cbn [fold_left length]. rewrite IH.
    + cbn [LightweightKmer_shift].
      destruct s as [|a t]; [cbn in Hlen; lia|]. cbn [tl].
      by rewrite <- app_assoc.
    + destruct s as [|a t]; [cbn in Hlen; lia|].
      cbn [LightweightKmer_shift tl]. rewrite length_app. cbn in *. lia.
Qed.

(** X12.  Shifting the symbols of a sequence [cs] into a consistent
    vertex one after the other leaves the last [Kmer::length()] symbols of
    the old k-mer followed by [cs], paired with the hash of that window
    computed from scratch; once [cs] is at least k long the old k-mer is
    gone. *)
Theorem X12_sliding_along_a_sequence (cs : list ascii)
    (u : RollingBloomDBGVertex) :
  consistent numHashes u ->
  let v := mutate_all (map (Shift SENSE) cs) u in
  m_kmer v = drop (length cs) (m_kmer u ++ cs)
  /\ m_rollingHash v
     = RollingHash_new (drop (length cs) (m_kmer u ++ cs)) numHashes
         Kmer_length
  /\ ((Kmer_length <= length cs)%nat ->
      m_kmer v = drop (length cs - Kmer_length) cs).
Proof.
  intros Hu v.
  assert (Hv : consistent numHashes v).
  { subst v. clear -Hu Hk HC. revert u Hu. unfold mutate_all.
    induction cs as [|c cs IH]; intros u Hu; [done|].
    cbn [map fold_left]. apply IH. by apply (mutate_consistent numHashes Hk). }
  assert (Hkm : m_kmer v = drop (length cs) (m_kmer u ++ cs)).
  { rewrite <- (slide_kmer cs (m_kmer u) (proj1 Hu)).
    subst v. unfold mutate_all. clear. revert u.
    induction cs as [|c cs IH]; intros u; [done|].
    cbn [map fold_left]. by rewrite IH. }
  split; [done|]. split.
  - rewrite (proj2 Hv). unfold fresh_hash. by rewrite Hkm.
  - intros Hlen. rewrite Hkm, drop_app_ge by (rewrite (proj1 Hu); lia).
    by rewrite (proj1 Hu).
Qed.
End Composition.

Section InDegree.
Context `{HI : RollingHashImpl} {BF : Type} `{BO : BloomFilterOps BF}.
Context (numHashes : nat) {HC : RollingHashContract numHashes}.
Context (Hk : valid_session).

(** X6.  For a consistent vertex [u], [in_degree(u)] is the number of
    alphabet symbols [c] whose candidate (a clone of [u] shifted in the
    ANTISENSE direction with its first base set to [c]) passes the oracle,
    and [in_edges(u)] yields the edges from those candidates to [u], in
    alphabet order of [c]. *)
Theorem X6_in_degree_counts_passing_candidates
    (n : nat) (u : RollingBloomDBGVertex) (g : RollingBloomDBG BF) :
  consistent numHashes u ->
  in_degree (alphabet_fuel + n) u g
  = Some (Z.of_nat (length
       (List.filter (fun c => vertex_exists (candidate ANTISENSE u c) g)
                    BASE_CHARS)))
  /\ in_edge_seq (alphabet_fuel + n) u g
     = Some (map (fun c => (candidate ANTISENSE u c, u))
          (List.filter (fun c => vertex_exists (candidate ANTISENSE u c) g)
                       BASE_CHARS)).
Proof.
  intros Hu. rewrite in_degree_closed, in_edge_seq_closed.
  rewrite (neighbours_independent numHashes Hk ANTISENSE u g Hu).
  rewrite length_map, map_map. done.
Qed.
End InDegree.

(** ** Unmasked equality *)

Section Unmasked.
Context `{Sess : Session}.

(** X16.  Without a spaced seed, [operator==] holds between two vertices
    of [Kmer::length()] symbols exactly when they have the same k-mer and
    the same hash state. *)
Theorem X16_unmasked_equality_is_identity (u v : RollingBloomDBGVertex) :
  MaskedKmer_mask = [] ->
  length (m_kmer u) = Kmer_length -> length (m_kmer v) = Kmer_length ->
  Vertex_eq u v = true <-> u = v.
Proof.
  intros Hmask Hu Hv. split.
  - intros Heq.
    unfold Vertex_eq, Vertex_eq_trace, RollingHash_ne in Heq.
    destruct (bool_decide (m_rollingHash u = m_rollingHash v)) eqn:Hh;
      [|done].
    apply bool_decide_eq_true in Hh. cbn [negb fst] in Heq.
    pose proof (proj1 (LightweightKmer_eq_spec _ _ Hu Hv) Heq) as Hag.
    destruct u as [ku hu], v as [kv hv]. cbn in *. subst hv. f_equal.
    apply list_eq. intros i.
    destruct (decide (i < Kmer_length)%nat) as [Hi | Hi].
    + apply Hag; [done|]. unfold significant. by rewrite Hmask.
    + rewrite !lookup_ge_None_2 by lia. done.
  - intros ->.
    unfold Vertex_eq, Vertex_eq_trace, RollingHash_ne.
    rewrite bool_decide_eq_true_2 by done. cbn [negb fst].
    by apply (proj2 (LightweightKmer_eq_spec _ _ Hv Hv)).
Qed.
End Unmasked.

(** ** The unit tests *)

Section RangeSteps.
Context {It Val : Type} `{InputIterator It Val}.

Lemma range_cons_inv (fuel : nat) (first last : It) (x : Val) (l : list Val) :
  range_elements fuel first last = Some (x :: l) ->
  it_eqb first last = false /\ it_deref first = Some x
  /\ exists first' fuel', it_incr first = Some first'
       /\ range_elements fuel' first' last = Some l.
Proof.
  destruct fuel as [|fuel]; cbn [range_elements];
    destruct (it_eqb first last); try done.
  destruct (it_deref first) as [y|]; [|done].
  destruct (it_incr first) as [first'|]; [|done].
  destruct (range_elements fuel first' last) as [l'|] eqn:Hr; [|done].
  cbn. intros [= -> ->]. eauto 10.
Qed.

Lemma range_nil_inv (fuel : nat) (first last : It) :
  range_elements fuel first last = Some [] -> it_eqb first last = true.
Proof.
  destruct fuel as [|fuel]; cbn [range_elements];
    destruct (it_eqb first last); try done.
  destruct (it_deref first); [|done]. destruct (it_incr first); [|done].
  by destruct (range_elements fuel _ _).
Qed.

Lemma range_two_inv (fuel : nat) (first last : It) (x y : Val) :
  range_elements fuel first last = Some [x; y] ->
  it_eqb first last = false /\ it_deref first = Some x
  /\ exists i1, it_incr first = Some i1
       /\ it_eqb i1 last = false /\ it_deref i1 = Some y
       /\ exists i2, it_incr i1 = Some i2 /\ it_eqb i2 last = true.
Proof.
  intros Hr.
  apply range_cons_inv in Hr as (He & Hd & i1 & f1 & Hi1 & Hr).
  apply range_cons_inv in Hr as (He1 & Hd1 & i2 & f2 & Hi2 & Hr).
  apply range_nil_inv in Hr. eauto 12.
Qed.
End RangeSteps.

Section KeyMatch.
Context `{Sess : Session} `{HS : RollingHashSeed}.

Lemma key_match_refl (x : RollingBloomDBGVertex) : key_match x x = true.
Proof.
  unfold key_match, Vertex_eq, Vertex_eq_trace, RollingHash_ne.
  rewrite Z.eqb_refl, bool_decide_eq_true_2 by done. cbn [negb fst andb].
  unfold LightweightKmer_eq. apply forallb_forall. intros i _.
  rewrite bool_decide_eq_true_2 by done. apply orb_true_r.
Qed.

Lemma key_match_differ (x e : RollingBloomDBGVertex) (i : nat) :
  (i < Kmer_length)%nat -> significant i = true ->
  nth i (m_kmer e) "000"%char <> nth i (m_kmer x) "000"%char ->
  key_match x e = false.
Proof.
  intros Hi Hsig Hne.
  unfold key_match, Vertex_eq, Vertex_eq_trace, RollingHash_ne.
  destruct (bool_decide (m_rollingHash e = m_rollingHash x));
    cbn [negb fst]; [|apply andb_false_r].
  apply andb_false_intro2.
  destruct (LightweightKmer_eq (m_kmer e) (m_kmer x)) eqn:Heq; [|done].
  unfold LightweightKmer_eq in Heq. rewrite forallb_forall in Heq.
  specialize (Heq i). rewrite in_seq, Hsig in Heq. cbn [negb orb] in Heq.
  assert (Hrange : (0 <= i < 0 + Kmer_length)%nat) by lia.
  apply Heq, bool_decide_eq_true in Hrange. done.
Qed.

Lemma uset_pair (a b : RollingBloomDBGVertex) :
  key_match b a = false ->
  uset_insert (uset_insert [] a) b = [a; b]
  /\ uset_find [a; b] a = Some 0%nat
  /\ uset_find [a; b] b = Some 1%nat
  /\ uset_erase [a; b] 0 = [b] /\ uset_erase [a; b] 1 = [a]
  /\ uset_find [a] a = Some 0%nat /\ uset_find [b] b = Some 0%nat.
Proof.
  intros Hab. unfold uset_insert, uset_erase.
  cbn -[key_match]. rewrite Hab. cbn -[key_match].
  by rewrite !key_match_refl.
Qed.
End KeyMatch.

Section TestsPass.
Context `{HI : RollingHashImpl} `{HS : RollingHashSeed}.
Context {BF : Type} `{BO : BloomFilterOps BF}.
Context (numHashes : nat) {HC : RollingHashContract numHashes}.
Context (Hk5 : Kmer_length = 5%nat).

Lemma valid_session_of_5 : valid_session.
Proof. unfold valid_session. rewrite Hk5. split; reflexivity. Qed.

Lemma fixture_vertex_consistent (s : string) :
  length (list_ascii_of_string s) = 5%nat ->
  consistent numHashes (make_vertex s numHashes 5).
Proof.
  intros Hlen. split; cbn [make_vertex m_kmer m_rollingHash].
  - by rewrite Hk5.
  - unfold fresh_hash. cbn [m_kmer]. by rewrite Hk5.
Qed.

Lemma fixture_neighbours dir (s : string) (g : RollingBloomDBG BF) :
  length (list_ascii_of_string s) = 5%nat ->
  neighbours dir (make_vertex s numHashes 5) g
  = List.filter (fun w => vertex_exists w g)
      (map (fun c =>
              mkVertex (candidate_kmer dir (list_ascii_of_string s) c)
                (RollingHash_new
                   (candidate_kmer dir (list_ascii_of_string s) c)
                   numHashes 5))
         BASE_CHARS).
Proof.
  intros Hlen. unfold neighbours.
  rewrite (candidates_independent numHashes valid_session_of_5 dir _
             (fixture_vertex_consistent s Hlen)).
  f_equal. apply map_ext. intros c.
  rewrite (candidate_fresh numHashes valid_session_of_5 dir _ c
             (fixture_vertex_consistent s Hlen)).
  cbn [make_vertex m_kmer]. by rewrite Hk5.
Qed.

(** With the oracle answering as in the fixture, GACTC has the two
    out-neighbours and the two in-neighbours of the test graph. *)
Lemma fixture_out_neighbours (g : RollingBloomDBG BF) :
  Forall (fun s => vertex_exists (make_vertex s numHashes 5) g = true)
    ["ACTCT"; "ACTCG"]%string ->
  Forall (fun s => vertex_exists (make_vertex s numHashes 5) g = false)
    ["ACTCA"; "ACTCC"]%string ->
  neighbours SENSE (make_vertex "GACTC" numHashes 5) g
  = [make_vertex "ACTCG" numHashes 5; make_vertex "ACTCT" numHashes 5].
Proof.
  intros Hin Hout. rewrite fixture_neighbours by reflexivity.
  repeat match goal with
         | H : Forall _ (_ :: _) |- _ => inversion_clear H
         | H : Forall _ [] |- _ => clear H
         end.
  unfold make_vertex in *. cbn [list_ascii_of_string] in *.
  change BASE_CHARS with ["A"; "C"; "G"; "T"]%char.
  cbn [map candidate_kmer tl removelast app List.filter].
  repeat match goal with
         | H : vertex_exists _ _ = _ |- _ => rewrite H; clear H
         end.
  done.
Qed.

Lemma fixture_in_neighbours (g : RollingBloomDBG BF) :
  Forall (fun s => vertex_exists (make_vertex s numHashes 5) g = true)
    ["CGACT"; "TGACT"]%string ->
  Forall (fun s => vertex_exists (make_vertex s numHashes 5) g = false)
    ["AGACT"; "GGACT"]%string ->
  neighbours ANTISENSE (make_vertex "GACTC" numHashes 5) g
  = [make_vertex "CGACT" numHashes 5; make_vertex "TGACT" numHashes 5].
Proof.
  intros Hin Hout. rewrite fixture_neighbours by reflexivity.
  repeat match goal with
         | H : Forall _ (_ :: _) |- _ => inversion_clear H
         | H : Forall _ [] |- _ => clear H
         end.
  unfold make_vertex in *. cbn [list_ascii_of_string] in *.
  change BASE_CHARS with ["A"; "C"; "G"; "T"]%char.
  cbn [map candidate_kmer tl removelast app List.filter].
  repeat match goal with
         | H : vertex_exists _ _ = _ |- _ => rewrite H; clear H
         end.
  done.
Qed.

Lemma fixture_out_keys :
  significant 4 = true ->
  key_match (make_vertex "ACTCG" numHashes 5)
    (make_vertex "ACTCT" numHashes 5) = false.
Proof.
  intros Hs. apply (key_match_differ _ _ 4); [rewrite Hk5; lia|done|done].
Qed.

Lemma fixture_in_keys :
  significant 0 = true ->
  key_match (make_vertex "TGACT" numHashes 5)
    (make_vertex "CGACT" numHashes 5) = false.
Proof.
  intros Hs. apply (key_match_differ _ _ 0); [rewrite Hk5; lia|done|done].
Qed.

Lemma out_edge_test_passes (g : RollingBloomDBG BF) (n : nat) :
  significant 4 = true ->
  Forall (fun s => vertex_exists (make_vertex s numHashes 5) g = true)
    ["ACTCT"; "ACTCG"]%string ->
  Forall (fun s => vertex_exists (make_vertex s numHashes 5) g = false)
    ["ACTCA"; "ACTCC"]%string ->
  TEST_out_edge_iterator numHashes 5 g (alphabet_fuel + n) = true.
Proof.
  intros Hs Hin Hout.
  pose proof (fixture_out_neighbours g Hin Hout) as Hnb.
  pose proof (out_degree_closed n (make_vertex "GACTC" numHashes 5) g) as Hdeg.
  pose proof (out_edge_seq_closed n (make_vertex "GACTC" numHashes 5) g)
    as Hseq.
  rewrite Hnb in Hdeg, Hseq. cbn [map length] in Hdeg, Hseq.
  unfold out_edge_seq in Hseq. cbn zeta in Hseq.
  apply range_two_inv in Hseq
    as (He & Hd & i1 & Hi1 & He1 & Hd1 & i2 & Hi2 & He2).
  destruct (uset_pair (make_vertex "ACTCT" numHashes 5)
              (make_vertex "ACTCG" numHashes 5) (fixture_out_keys Hs))
    as (Hins & _ & Hf1 & _ & Her & Hf0 & _).
  cbn [it_eqb it_deref it_incr out_edge_iterator.input_iterator]
    in He, Hd, Hi1, He1, Hd1, Hi2, He2.
  unfold TEST_out_edge_iterator.
  rewrite bool_decide_eq_true_2 by done. cbn [andb].
  destruct (out_edges (make_vertex "GACTC" numHashes 5) g) as [ei ei_end].
  cbn [fst snd] in *.
  unfold out_edge_iterator.neqb, out_edge_iterator.post_incr,
    out_edge_iterator.eqb in *.
  rewrite (Z.eqb_sym (out_edge_iterator.m_i ei_end)), He. cbn [negb andb].
  rewrite Hd, Hins. cbn [target snd]. rewrite Hf1, Her, Hi1.
  rewrite (Z.eqb_sym (out_edge_iterator.m_i ei_end)), He1. cbn [negb andb].
  rewrite Hd1. cbn [target snd]. rewrite Hf0, Hi2.
  by rewrite (Z.eqb_sym (out_edge_iterator.m_i ei_end)).
Qed.

Lemma adjacency_test_passes (g : RollingBloomDBG BF) (n : nat) :
  significant 4 = true ->
  Forall (fun s => vertex_exists (make_vertex s numHashes 5) g = true)
    ["ACTCT"; "ACTCG"]%string ->
  Forall (fun s => vertex_exists (make_vertex s numHashes 5) g = false)
    ["ACTCA"; "ACTCC"]%string ->
  TEST_adjacency_iterator numHashes 5 g (alphabet_fuel + n) = true.
Proof.
  intros Hs Hin Hout.
  pose proof (fixture_out_neighbours g Hin Hout) as Hnb.
  pose proof (out_degree_closed n (make_vertex "GACTC" numHashes 5) g) as Hdeg.
  pose proof (adjacency_seq_closed n (make_vertex "GACTC" numHashes 5) g)
    as Hseq.
  rewrite Hnb in Hdeg, Hseq. cbn [map length] in Hdeg, Hseq.
  unfold adjacency_seq in Hseq. cbn zeta in Hseq.
  apply range_two_inv in Hseq
    as (He & Hd & i1 & Hi1 & He1 & Hd1 & i2 & Hi2 & He2).
  destruct (uset_pair (make_vertex "ACTCT" numHashes 5)
              (make_vertex "ACTCG" numHashes 5) (fixture_out_keys Hs))
    as (Hins & _ & Hf1 & _ & Her & Hf0 & _).
  cbn [it_eqb it_deref it_incr adjacency_iterator.input_iterator]
    in He, Hd, Hi1, He1, Hd1, Hi2, He2.
  unfold TEST_adjacency_iterator.
  rewrite bool_decide_eq_true_2 by done. cbn [andb].
  destruct (adjacent_vertices (make_vertex "GACTC" numHashes 5) g)
    as [ai ai_end].
  cbn [fst snd] in *.
  unfold adjacency_iterator.neqb, adjacency_iterator.post_incr,
    adjacency_iterator.eqb in *.
  rewrite (Z.eqb_sym (adjacency_iterator.m_i ai_end)), He. cbn [negb andb].
  rewrite Hd, Hins, Hf1, Her, Hi1.
  rewrite (Z.eqb_sym (adjacency_iterator.m_i ai_end)), He1. cbn [negb andb].
  rewrite Hd1, Hf0, Hi2.
  by rewrite (Z.eqb_sym (adjacency_iterator.m_i ai_end)).
Qed.

Lemma in_edges_test_passes (g : RollingBloomDBG BF) (n : nat) :
  significant 0 = true ->
  Forall (fun s => vertex_exists (make_vertex s numHashes 5) g = true)
    ["CGACT"; "TGACT"]%string ->
  Forall (fun s => vertex_exists (make_vertex s numHashes 5) g = false)
    ["AGACT"; "GGACT"]%string ->
  TEST_in_edges numHashes 5 g (alphabet_fuel + n) = true.
Proof.
  intros Hs Hin Hout.
  pose proof (fixture_in_neighbours g Hin Hout) as Hnb.
  pose proof (in_degree_closed n (make_vertex "GACTC" numHashes 5) g) as Hdeg.
  pose proof (in_edge_seq_closed n (make_vertex "GACTC" numHashes 5) g)
    as Hseq.
  rewrite Hnb in Hdeg, Hseq. cbn [map length] in Hdeg, Hseq.
  unfold in_edge_seq in Hseq. cbn zeta in Hseq.
  apply range_two_inv in Hseq
    as (He & Hd & i1 & Hi1 & He1 & Hd1 & i2 & Hi2 & He2).
  destruct (uset_pair (make_vertex "CGACT" numHashes 5)
              (make_vertex "TGACT" numHashes 5) (fixture_in_keys Hs))
    as (Hins & Hf1 & _ & Her & _ & _ & Hf0).
  cbn [it_eqb it_deref it_incr in_edge_iterator.input_iterator]
    in He, Hd, Hi1, He1, Hd1, Hi2, He2.
  unfold TEST_in_edges.
  rewrite bool_decide_eq_true_2 by done. cbn [andb].
  destruct (in_edges (make_vertex "GACTC" numHashes 5) g) as [ei ei_end].
  cbn [fst snd] in *.
  unfold in_edge_iterator.neqb, in_edge_iterator.post_incr,
    in_edge_iterator.eqb in *.
  rewrite (Z.eqb_sym (in_edge_iterator.m_i ei_end)), He. cbn [negb andb].
  rewrite Hd, Hins. cbn [source fst]. rewrite Hf1, Her, Hi1.
  rewrite (Z.eqb_sym (in_edge_iterator.m_i ei_end)), He1. cbn [negb andb].
  rewrite Hd1. cbn [source fst]. rewrite Hf0, Hi2.
  by rewrite (Z.eqb_sym (in_edge_iterator.m_i ei_end)).
Qed.
End TestsPass.

(** X13.  The three tests of the fixture [RollingBloomDBGTest]
    ([out_edge_iterator], [adjacency_iterator], [in_edges]) pass for every
    rolling hash that meets the contract and every Bloom filter that reports
    the four neighbours of GACTC present and the four other candidates
    absent. *)
Theorem X13_unit_tests_pass
    (HI : @RollingHashImpl (unmasked_session 5)) `{HS : RollingHashSeed}
    {BF : Type} `{BO : BloomFilterOps BF}
    (HC : @RollingHashContract (unmasked_session 5) HI 2)
    (g : RollingBloomDBG BF) (n : nat) :
  Forall (fun s => vertex_exists (test_vertex HI s) g = true)
    ["CGACT"; "TGACT"; "ACTCT"; "ACTCG"]%string ->
  Forall (fun s => vertex_exists (test_vertex HI s) g = false)
    ["ACTCA"; "ACTCC"; "AGACT"; "GGACT"]%string ->
  @TEST_out_edge_iterator (unmasked_session 5) HI HS BF BO 2 5 g
    (alphabet_fuel + n) = true
  /\ @TEST_adjacency_iterator (unmasked_session 5) HI HS BF BO 2 5 g
       (alphabet_fuel + n) = true
  /\ @TEST_in_edges (unmasked_session 5) HI HS BF BO 2 5 g
       (alphabet_fuel + n) = true.
Proof.
  intros Hin Hout. unfold test_vertex in *.
  repeat match goal with
         | H : Forall _ (_ :: _) |- _ =>
             apply Forall_cons in H as [? H]
         end.
  split; [|split].
  - apply (@out_edge_test_passes (unmasked_session 5) HI HS BF BO 2 HC eq_refl g n
             eq_refl);
      by repeat constructor.
  - apply (@adjacency_test_passes (unmasked_session 5) HI HS BF BO 2 HC eq_refl g n
             eq_refl);
      by repeat constructor.
  - apply (@in_edges_test_passes (unmasked_session 5) HI HS BF BO 2 HC eq_refl g n
             eq_refl);
      by repeat constructor.
Qed.

(** X14.  The test of the fixture [RollingBloomDBGSpacedSeedTest]
    (k = 5, one hash value, spaced seed "11011") passes for every rolling
    hash that meets the contract and every Bloom filter that reports ACTCT
    and ACTCG present and ACTCA and ACTCC absent. *)
Theorem X14_spaced_seed_test_passes
    (HI : @RollingHashImpl (masked_session 5 "11011"))
    `{HS : RollingHashSeed} {BF : Type} `{BO : BloomFilterOps BF}
    (HC : @RollingHashContract (masked_session 5 "11011") HI 1)
    (g : RollingBloomDBG BF) (n : nat) :
  Forall (fun s => vertex_exists
                     (@make_vertex (masked_session 5 "11011") HI s 1 5) g
                   = true)
    ["ACTCT"; "ACTCG"]%string ->
  Forall (fun s => vertex_exists
                     (@make_vertex (masked_session 5 "11011") HI s 1 5) g
                   = false)
    ["ACTCA"; "ACTCC"]%string ->
  @TEST_out_edge_iterator (masked_session 5 "11011") HI HS BF BO 1 5 g
    (alphabet_fuel + n) = true.
Proof.
  intros Hin Hout.
  by apply (@out_edge_test_passes (masked_session 5 "11011") HI HS BF BO 1
              HC eq_refl g n eq_refl).
Qed.

Lemma masked_hash_contract (S : Session) (numHashes : nat) :
  @RollingHashContract S (Ref.masked_hash_impl S) numHashes.
Proof.
  split; cbn [RollingHash_new RollingHash_rollRight RollingHash_rollLeft
              RollingHash_setBaseHash Ref.masked_hash_impl];
    intros; unfold Ref.masked_new at 2;
    by rewrite RefFacts.length_multiHash, ?Nat2Z.id.
Qed.

Lemma X13_witness :
  @TEST_out_edge_iterator Ref.test_session Ref.test_hash Ref.seed_impl _
    Ref.bloom_ops 2 5 Ref.test_graph (alphabet_fuel + 0) = true
  /\ @TEST_adjacency_iterator Ref.test_session Ref.test_hash Ref.seed_impl _
       Ref.bloom_ops 2 5 Ref.test_graph (alphabet_fuel + 0) = true
  /\ @TEST_in_edges Ref.test_session Ref.test_hash Ref.seed_impl _
       Ref.bloom_ops 2 5 Ref.test_graph (alphabet_fuel + 0) = true.
Proof.
  apply (@X13_unit_tests_pass Ref.test_hash Ref.seed_impl _ Ref.bloom_ops
           (RefFacts.contract 5 2) Ref.test_graph 0).
  - repeat constructor; vm_compute; reflexivity.
  - repeat constructor; vm_compute; reflexivity.
Defined.

Lemma X14_witness :
  @TEST_out_edge_iterator Ref.spaced_session Ref.spaced_hash Ref.seed_impl _
    Ref.bloom_ops 1 5 Ref.spaced_graph (alphabet_fuel + 0) = true.
Proof.
  apply (@X14_spaced_seed_test_passes Ref.spaced_hash Ref.seed_impl _
           Ref.bloom_ops (masked_hash_contract Ref.spaced_session 1)
           Ref.spaced_graph 0).
  - repeat constructor; vm_compute; reflexivity.
  - repeat constructor; vm_compute; reflexivity.
Defined.

(** ** The properties on the test fixture *)

Lemma X3_witness :
  let ia := @adjacency_iterator.begin_ Ref.test_session Ref.test_hash _
              Ref.bloom_ops Ref.test_graph (Ref.V "GACTC") in
  let io := @out_edge_iterator.begin_ Ref.test_session Ref.test_hash _
              Ref.bloom_ops Ref.test_graph (Ref.V "GACTC") in
  let ii := @in_edge_iterator.begin_ Ref.test_session Ref.test_hash _
              Ref.bloom_ops Ref.test_graph (Ref.V "GACTC") in
  match @adjacency_iterator.incr Ref.test_session Ref.test_hash _
          Ref.bloom_ops ia with
  | Some it' =>
      adjacency_iterator.m_i ia < adjacency_iterator.m_i it' <= NUM_BASES
      /\ adjacency_iterator.m_g it' = adjacency_iterator.m_g ia
      /\ adjacency_iterator.m_u it' = adjacency_iterator.m_u ia
      /\ (adjacency_iterator.m_i it' = NUM_BASES
          \/ vertex_exists (adjacency_iterator.m_v it')
               (adjacency_iterator.m_g ia) = true)
  | None =>
      NUM_BASES <= adjacency_iterator.m_i ia
      /\ adjacency_iterator.deref ia = None
  end
  /\ match @out_edge_iterator.incr Ref.test_session Ref.test_hash _
             Ref.bloom_ops io with
     | Some it' =>
         out_edge_iterator.m_i io < out_edge_iterator.m_i it' <= NUM_BASES
         /\ out_edge_iterator.m_g it' = out_edge_iterator.m_g io
         /\ out_edge_iterator.m_u it' = out_edge_iterator.m_u io
         /\ (out_edge_iterator.m_i it' = NUM_BASES
             \/ vertex_exists (out_edge_iterator.m_v it')
                  (out_edge_iterator.m_g io) = true)
     | None =>
         NUM_BASES <= out_edge_iterator.m_i io
         /\ out_edge_iterator.deref io = None
     end
  /\ match @in_edge_iterator.incr Ref.test_session Ref.test_hash _
             Ref.bloom_ops ii with
     | Some it' =>
         in_edge_iterator.m_i ii < in_edge_iterator.m_i it' <= NUM_BASES
         /\ in_edge_iterator.m_g it' = in_edge_iterator.m_g ii
         /\ in_edge_iterator.m_u it' = in_edge_iterator.m_u ii
         /\ (in_edge_iterator.m_i it' = NUM_BASES
             \/ vertex_exists (in_edge_iterator.m_v it')
                  (in_edge_iterator.m_g ii) = true)
     | None =>
         NUM_BASES <= in_edge_iterator.m_i ii
         /\ in_edge_iterator.deref ii = None
     end.
Proof.
  apply (@X3_increment_advances_cursor Ref.test_session Ref.test_hash _
           Ref.bloom_ops);
    vm_compute; discriminate.
Defined.

Lemma X4_witness :
  let u := Ref.V "GACTC" in
  exists (lo li : list edge_descriptor),
    @out_edge_seq Ref.test_session Ref.test_hash _ Ref.bloom_ops
      (alphabet_fuel + 0) u Ref.test_graph = Some lo
    /\ @in_edge_seq Ref.test_session Ref.test_hash _ Ref.bloom_ops
         (alphabet_fuel + 0) u Ref.test_graph = Some li
    /\ Forall (fun e =>
         source e = u /\ vertex_exists (target e) Ref.test_graph = true
         /\ length (m_kmer (target e)) = 5%nat
         /\ removelast (m_kmer (target e)) = tl (m_kmer u)
         /\ exists c, In c BASE_CHARS
                      /\ m_kmer (target e) = tl (m_kmer u) ++ [c]) lo
    /\ Forall (fun e =>
         target e = u /\ vertex_exists (source e) Ref.test_graph = true
         /\ length (m_kmer (source e)) = 5%nat
         /\ tl (m_kmer (source e)) = removelast (m_kmer u)
         /\ exists c, In c BASE_CHARS
                      /\ m_kmer (source e) = c :: removelast (m_kmer u)) li.
Proof.
  apply (@X4_neighbours_overlap Ref.test_session Ref.test_hash _
           Ref.bloom_ops).
  - split; reflexivity.
  - reflexivity.
Defined.

Lemma X5_witness :
  let u := Ref.V "GACTC" in
  exists (la : list RollingBloomDBGVertex) (lo li : list edge_descriptor),
    @adjacency_seq Ref.test_session Ref.test_hash _ Ref.bloom_ops
      (alphabet_fuel + 0) u Ref.test_graph = Some la
    /\ @out_edge_seq Ref.test_session Ref.test_hash _ Ref.bloom_ops
         (alphabet_fuel + 0) u Ref.test_graph = Some lo
    /\ @in_edge_seq Ref.test_session Ref.test_hash _ Ref.bloom_ops
         (alphabet_fuel + 0) u Ref.test_graph = Some li
    /\ List.NoDup (map m_kmer la)
    /\ (@significant Ref.test_session (@last_index Ref.test_session SENSE)
        = true ->
        (forall (i j : nat) w1 w2, i <> j ->
           la !! i = Some w1 -> la !! j = Some w2 ->
           @Vertex_eq Ref.test_session w1 w2 = false)
        /\ (forall (i j : nat) e1 e2, i <> j ->
              lo !! i = Some e1 -> lo !! j = Some e2 ->
              @Vertex_eq Ref.test_session (target e1) (target e2) = false))
    /\ (@significant Ref.test_session (@last_index Ref.test_session ANTISENSE)
        = true ->
        forall (i j : nat) e1 e2, i <> j ->
          li !! i = Some e1 -> li !! j = Some e2 ->
          @Vertex_eq Ref.test_session (source e1) (source e2) = false)
    /\ (@significant Ref.test_session (@last_index Ref.test_session SENSE)
        = false ->
        forall w1 w2, In w1 la -> In w2 la ->
          m_rollingHash w1 = m_rollingHash w2 ->
          @Vertex_eq Ref.test_session w1 w2 = true).
Proof.
  apply (@X5_neighbours_pairwise_unequal Ref.test_session Ref.test_hash _
           Ref.bloom_ops).
  - split; reflexivity.
  - reflexivity.
Defined.

(** Under the mask "11110" the position a SENSE shift exposes is hidden:
    with the single k-mer ACTCA in the filter, GACTC has out-degree 4 and
    the four targets ACTCA, ACTCC, ACTCG, ACTCT compare equal under
    [operator==]. *)
Example masked_neighbours_compare_equal :
  let S := masked_session 5 "11110" in
  let HI := Ref.masked_hash_impl S in
  let g :=
    mkGraph
      (Ref.bloom_insert (Ref.bloom_new Ref.test_bloomSize 1 5)
         (RollingHash_getHashes
            (@Ref.masked_new S (list_ascii_of_string "ACTCA") 1 5))) in
  let u := @make_vertex S HI "GACTC" 1 5 in
  exists lo : list edge_descriptor,
    @out_edge_seq S HI _ Ref.bloom_ops alphabet_fuel u g = Some lo
    /\ @out_degree S HI _ Ref.bloom_ops alphabet_fuel u g = Some 4%Z
    /\ map (fun e => string_of_list_ascii (m_kmer (target e))) lo
       = ["ACTCA"; "ACTCC"; "ACTCG"; "ACTCT"]%string
    /\ forallb
         (fun e1 => forallb (fun e2 => @Vertex_eq S (target e1) (target e2)) lo)
         lo = true.
Proof.
  eexists. split; [vm_compute; reflexivity|].
  split; [vm_compute; reflexivity|].
  split; vm_compute; reflexivity.
Qed.

Lemma X6_witness :
  let u := Ref.V "GACTC" in
  let passes := fun c =>
    vertex_exists (@candidate Ref.test_session Ref.test_hash ANTISENSE u c)
      Ref.test_graph in
  @in_degree Ref.test_session Ref.test_hash _ Ref.bloom_ops
    (alphabet_fuel + 0) u Ref.test_graph
  = Some (Z.of_nat (length (List.filter passes BASE_CHARS)))
  /\ @in_edge_seq Ref.test_session Ref.test_hash _ Ref.bloom_ops
       (alphabet_fuel + 0) u Ref.test_graph
     = Some (map (fun c =>
                    (@candidate Ref.test_session Ref.test_hash ANTISENSE u c,
                     u))
               (List.filter passes BASE_CHARS)).
Proof.
  apply (@X6_in_degree_counts_passing_candidates Ref.test_session
           Ref.test_hash _ Ref.bloom_ops 2 (RefFacts.contract 5 2)).
  - split; reflexivity.
  - split; reflexivity.
Defined.

Lemma X8_witness :
  let S := masked_session 5 "11011" in
  let u := mkVertex (list_ascii_of_string "GACTC") [7; 11] in
  let v := mkVertex (list_ascii_of_string "GAGTC") [7; 11] in
  @Vertex_hash Ref.seed_impl u = @Vertex_hash Ref.seed_impl v
  /\ @vertex_exists _ Ref.bloom_ops u Ref.test_graph
     = @vertex_exists _ Ref.bloom_ops v Ref.test_graph.
Proof.
  apply (@X8_equal_vertices_hash_and_exist_alike (masked_session 5 "11011")
           Ref.seed_impl _ Ref.bloom_ops).
  reflexivity.
Defined.

Lemma X9_witness :
  let u := Ref.V "GACTC" in
  @shift Ref.test_session Ref.test_hash ANTISENSE
    (nth 0 (m_kmer u) "000"%char)
    (@shift Ref.test_session Ref.test_hash SENSE "T" u) = u
  /\ @shift Ref.test_session Ref.test_hash SENSE
       (nth (5 - 1) (m_kmer u) "000"%char)
       (@shift Ref.test_session Ref.test_hash ANTISENSE "T" u) = u.
Proof.
  apply (@X9_shift_round_trip Ref.test_session Ref.test_hash 2
           (RefFacts.contract 5 2)).
  - split; reflexivity.
  - split; reflexivity.
Defined.

Lemma X10_witness :
  @setLastBase Ref.test_session Ref.test_hash SENSE "G"
    (@shift Ref.test_session Ref.test_hash SENSE "A" (Ref.V "GACTC"))
  = @shift Ref.test_session Ref.test_hash SENSE "G" (Ref.V "GACTC").
Proof.
  apply (@X10_placeholder_is_irrelevant Ref.test_session Ref.test_hash 2
           (RefFacts.contract 5 2)).
  - split; reflexivity.
  - split; reflexivity.
Defined.

Lemma X11_witness :
  let u := Ref.V "GACTC" in
  let setb := @setLastBase Ref.test_session Ref.test_hash in
  setb SENSE "T"%char (setb SENSE "A"%char u) = setb SENSE "T"%char u
  /\ (m_kmer u !! @last_index Ref.test_session SENSE = Some "T"%char ->
      setb SENSE "T"%char u = u)
  /\ m_kmer (setb SENSE "T"%char u) !! @last_index Ref.test_session SENSE
     = Some "T"%char
  /\ (forall i : nat, i <> @last_index Ref.test_session SENSE ->
        m_kmer (setb SENSE "T"%char u) !! i = m_kmer u !! i)
  /\ ((2 <= 5)%nat ->
      setb SENSE "A"%char (setb ANTISENSE "T"%char u)
      = setb ANTISENSE "T"%char (setb SENSE "A"%char u))
  /\ (5%nat = 1%nat ->
      setb SENSE "A"%char (setb ANTISENSE "T"%char u) = setb SENSE "A"%char u).
Proof.
  apply (@X11_setLastBase_overwrites Ref.test_session Ref.test_hash 2
           (RefFacts.contract 5 2)).
  - split; reflexivity.
  - split; reflexivity.
Defined.

Lemma X12_witness :
  let u := Ref.V "GACTC" in
  let cs := list_ascii_of_string "TGACTCG" in
  let v := @mutate_all Ref.test_session Ref.test_hash
             (map (Shift SENSE) cs) u in
  m_kmer v = drop (length cs) (m_kmer u ++ cs)
  /\ m_rollingHash v
     = @RollingHash_new Ref.test_session Ref.test_hash
         (drop (length cs) (m_kmer u ++ cs)) 2 5
  /\ ((5 <= length cs)%nat -> m_kmer v = drop (length cs - 5) cs).
Proof.
  apply (@X12_sliding_along_a_sequence Ref.test_session Ref.test_hash 2
           (RefFacts.contract 5 2)).
  - split; reflexivity.
  - split; reflexivity.
Defined.

Lemma X16_witness :
  @Vertex_eq Ref.test_session (Ref.V "GACTC") (Ref.V "GACTC") = true
  <-> Ref.V "GACTC" = Ref.V "GACTC".
Proof.
  apply (@X16_unmasked_equality_is_identity Ref.test_session); reflexivity.
Defined.

(** ** C1: the graph of the unit tests *)

Section TestGraph.
Context (HI : @RollingHashImpl (unmasked_session 5)).
Context (HC : @RollingHashContract (unmasked_session 5) HI 2).
Context {BF : Type} `{BO : BloomFilterOps BF}.

Lemma valid_session_5 : @valid_session (unmasked_session 5).
Proof. unfold valid_session. split; reflexivity. Qed.

Lemma test_vertex_consistent (s : string) :
  length (list_ascii_of_string s) = 5%nat -> @consistent (unmasked_session 5) HI 2 (test_vertex HI s).
Proof. intros Hlen. by split. Qed.

Lemma test_candidate dir (s : string) (c : ascii) :
  length (list_ascii_of_string s) = 5%nat ->
  @candidate (unmasked_session 5) HI dir (test_vertex HI s) c
  = mkVertex (candidate_kmer dir (list_ascii_of_string s) c)
      (@RollingHash_new (unmasked_session 5) HI
         (candidate_kmer dir (list_ascii_of_string s) c) 2 5).
Proof.
  intros Hlen.
  by rewrite (candidate_fresh 2 valid_session_5 dir _ c
                (test_vertex_consistent s Hlen)).
Qed.

Lemma test_neighbours dir (s : string) (g : RollingBloomDBG BF) :
  length (list_ascii_of_string s) = 5%nat ->
  @neighbours (unmasked_session 5) HI BF BO dir (test_vertex HI s) g
  = List.filter (fun w => vertex_exists w g)
      (map (fun c =>
              mkVertex (candidate_kmer dir (list_ascii_of_string s) c)
                (@RollingHash_new (unmasked_session 5) HI
                   (candidate_kmer dir (list_ascii_of_string s) c) 2 5))
         BASE_CHARS).
Proof.
  intros Hlen. unfold neighbours.
  rewrite (candidates_independent 2 valid_session_5 dir _
             (test_vertex_consistent s Hlen)).
  f_equal. apply map_ext. intros c. by apply test_candidate.
Qed.
End TestGraph.

#[local] Hint Extern 0 Session => exact (unmasked_session 5)
  : typeclass_instances.

(** C1.  With k = 5, two hash values and no mask, in a graph whose oracle
    reports the five inserted k-mers CGACT, TGACT, GACTC, ACTCT, ACTCG
    present and the other queried candidates absent: GACTC has out-degree 2
    and out-neighbours ACTCG, ACTCT; it has in-degree 2 and in-neighbours
    CGACT, TGACT; CGACT has out-degree 1 and the single out-neighbour
    GACTC. *)
Theorem C1_test_graph_neighbourhoods
    (HI : @RollingHashImpl (unmasked_session 5))
    (HC : @RollingHashContract (unmasked_session 5) HI 2)
    {BF : Type} `{BO : BloomFilterOps BF}
    (g : RollingBloomDBG BF) (n : nat) :
  let V := test_vertex HI in
  Forall (fun s => vertex_exists (V s) g = true)
    ["CGACT"; "TGACT"; "GACTC"; "ACTCT"; "ACTCG"]%string ->
  Forall (fun s => vertex_exists (V s) g = false)
    ["ACTCA"; "ACTCC"; "AGACT"; "GGACT";
     "GACTA"; "GACTG"; "GACTT"]%string ->
  out_degree (alphabet_fuel + n) (V "GACTC") g = Some 2
  /\ adjacency_seq (alphabet_fuel + n) (V "GACTC") g
     = Some [V "ACTCG"; V "ACTCT"]
  /\ in_degree (alphabet_fuel + n) (V "GACTC") g = Some 2
  /\ in_edge_seq (alphabet_fuel + n) (V "GACTC") g
     = Some [(V "CGACT", V "GACTC"); (V "TGACT", V "GACTC")]
  /\ out_degree (alphabet_fuel + n) (V "CGACT") g = Some 1
  /\ adjacency_seq (alphabet_fuel + n) (V "CGACT") g = Some [V "GACTC"].
Proof.
  intros V Hin Hout.
  rewrite !out_degree_closed, !adjacency_seq_closed, in_degree_closed,
    in_edge_seq_closed.
  subst V. rewrite !(test_neighbours HI HC) by reflexivity.
  repeat match goal with
         | H : Forall _ (_ :: _) |- _ => inversion_clear H
         | H : Forall _ [] |- _ => clear H
         end.
  unfold test_vertex, make_vertex in *.
  cbn [list_ascii_of_string] in *.
  change BASE_CHARS with ["A"; "C"; "G"; "T"]%char.
  cbn [map candidate_kmer tl removelast app List.filter].
  repeat match goal with
         | H : vertex_exists _ _ = _ |- _ => rewrite H; clear H
         end.
  done.
Qed.

Lemma C1_witness :
  let V := test_vertex Ref.test_hash in
  @out_degree _ Ref.test_hash _ Ref.bloom_ops
    (alphabet_fuel + 0) (V "GACTC") Ref.test_graph = Some 2
  /\ @adjacency_seq _ Ref.test_hash _ Ref.bloom_ops
       (alphabet_fuel + 0) (V "GACTC") Ref.test_graph
     = Some [V "ACTCG"; V "ACTCT"]
  /\ @in_degree _ Ref.test_hash _ Ref.bloom_ops
       (alphabet_fuel + 0) (V "GACTC") Ref.test_graph = Some 2
  /\ @in_edge_seq _ Ref.test_hash _ Ref.bloom_ops
       (alphabet_fuel + 0) (V "GACTC") Ref.test_graph
     = Some [(V "CGACT", V "GACTC"); (V "TGACT", V "GACTC")]
  /\ @out_degree _ Ref.test_hash _ Ref.bloom_ops
       (alphabet_fuel + 0) (V "CGACT") Ref.test_graph = Some 1
  /\ @adjacency_seq _ Ref.test_hash _ Ref.bloom_ops
       (alphabet_fuel + 0) (V "CGACT") Ref.test_graph = Some [V "GACTC"].
Proof.
  apply (@C1_test_graph_neighbourhoods Ref.test_hash (RefFacts.contract 5 2)
           _ Ref.bloom_ops Ref.test_graph 0).
  - repeat constructor; vm_compute; reflexivity.
  - repeat constructor; vm_compute; reflexivity.
Defined.
